(** * Bulk job runner: [run_bulk_jobs.py] over [cs_unix_util.py]

    A shallow embedding of the command normaliser ([scrub_line]), the job
    classifier ([has_logfile]), the log resolver ([get_runjob_logfile]), the
    asyncio executor ([run_command_async], [run_commands_async]) and the
    orchestrating script, followed by the properties established about them.

    Conventions.
    - A Python [str] is a Rocq [string], one [ascii] per character; the
      character tables ([isspace], [isalnum], [lower]) are the rows of the
      Unicode tables for code points below 256.
    - A Python [bytes] is a Rocq [string] as well, one [ascii] per byte.
    - A call that may raise returns a [result]; [None] is [option].
    - Everything outside the interpreter (file system, environment, child
      processes, the database, the order in which the event loop resumes its
      tasks) is an explicit oracle. *)

From Stdlib Require Import ZArith Ascii String.
From stdpp Require Import base relations list strings.

Local Open Scope string_scope.
Local Open Scope list_scope.

(** ** Exceptions *)

Inductive exn : Type :=
| IndexError
| ValueError
| UnicodeDecodeError
| OSError
| DatabaseError
| PyException (msg : string).

Inductive result (A : Type) : Type :=
| Ok (a : A)
| Raise (e : exn).
Arguments Ok {A} a.
Arguments Raise {A} e.

Definition bind {A B : Type} (m : result A) (k : A -> result B) : result B :=
  match m with
  | Ok a => k a
  | Raise e => Raise e
  end.

Notation "'do' x <- m ; k" := (bind m (fun x => k))
  (at level 10, x name, m at level 100, k at level 200).

(** [try: body except Exception: handler]. *)
Definition try_except {A : Type} (body : result A) (handler : exn -> A) : A :=
  match body with
  | Ok a => a
  | Raise e => handler e
  end.

(** ** The [str] methods the scripts use *)

Module PyStr.

(** [s.startswith(p)] *)
Fixpoint startswith (s p : string) {struct p} : bool :=
  match p with
  | EmptyString => true
  | String a p' =>
      match s with
      | EmptyString => false
      | String b s' => if Ascii.eqb a b then startswith s' p' else false
      end
  end.

(** [sub in s] *)
Fixpoint contains (sub s : string) : bool :=
  startswith s sub ||
  match s with
  | EmptyString => false
  | String _ s' => contains sub s'
  end.

(** [s.endswith(p)]: the suffix of [s] of the length of [p] is [p]. *)
Definition drop (n : nat) (s : string) : string :=
  String.substring n (String.length s - n) s.

Definition endswith (s p : string) : bool :=
  (String.length p <=? String.length s)%nat &&
  String.eqb (drop (String.length s - String.length p) s) p.

(** [s.replace(old, new)] for a non-empty [old]: the occurrences of [old]
    are replaced from left to right, none overlapping the one before.
    [skip] counts the characters of a matched [old] still to be passed. *)
Fixpoint replace_from (old new : string) (skip : nat) (s : string) : string :=
  match s with
  | EmptyString => EmptyString
  | String c rest =>
      match skip with
      | S k => replace_from old new k rest
      | O =>
          if startswith s old
          then new +:+ replace_from old new (pred (String.length old)) rest
          else String c (replace_from old new 0 rest)
      end
  end.

Definition replace (s old new : string) : string := replace_from old new 0 s.

(** [c] is put in front of the first piece. *)
Definition push_head (c : ascii) (pieces : list string) : list string :=
  match pieces with
  | [] => [String c EmptyString]
  | p :: ps => String c p :: ps
  end.

(** [s.split(sep)] for a non-empty [sep]. *)
Fixpoint split_from (sep : string) (skip : nat) (s : string) : list string :=
  match s with
  | EmptyString => [EmptyString]
  | String c rest =>
      match skip with
      | S k => split_from sep k rest
      | O =>
          if startswith s sep
          then EmptyString :: split_from sep (pred (String.length sep)) rest
          else push_head c (split_from sep 0 rest)
      end
  end.

Definition split (s sep : string) : list string := split_from sep 0 s.

(** [sep.join(pieces)] *)
Fixpoint join (sep : string) (pieces : list string) : string :=
  match pieces with
  | [] => EmptyString
  | [p] => p
  | p :: ps => p +:+ sep +:+ join sep ps
  end.

(** [c.isspace()] for one character: TAB, LF, VT, FF, CR, FS, GS, RS, US,
    space, NEL and NBSP. *)
Definition isspace (c : ascii) : bool :=
  let n := nat_of_ascii c in
  ((9 <=? n) && (n <=? 13) || (28 <=? n) && (n <=? 32) ||
   (n =? 133) || (n =? 160))%nat.

(** [s.split()]: the maximal runs of characters that are not whitespace. *)
Fixpoint words (s : string) : list string :=
  match s with
  | EmptyString => []
  | String c rest =>
      if isspace c then words rest
      else
        match rest with
        | EmptyString => [String c EmptyString]
        | String d _ =>
            if isspace d then String c EmptyString :: words rest
            else push_head c (words rest)
        end
  end.

(** [s.lstrip()], [s.rstrip()] and [s.strip()] *)
Fixpoint lstrip (s : string) : string :=
  match s with
  | EmptyString => EmptyString
  | String c rest => if isspace c then lstrip rest else s
  end.

(** [s.rstrip(chars)], the characters to remove given as a predicate. *)
Fixpoint rstrip_chars (p : ascii -> bool) (s : string) : string :=
  match s with
  | EmptyString => EmptyString
  | String c rest =>
      match rstrip_chars p rest with
      | EmptyString => if p c then EmptyString else String c EmptyString
      | r => String c r
      end
  end.

Definition rstrip (s : string) : string := rstrip_chars isspace s.

Definition strip (s : string) : string := rstrip (lstrip s).

(** [c.isalnum()] for one character: digits, letters, and the letters and
    numerals of the Latin-1 supplement. *)
Definition isalnum_char (c : ascii) : bool :=
  let n := nat_of_ascii c in
  ((48 <=? n) && (n <=? 57) || (65 <=? n) && (n <=? 90) ||
   (97 <=? n) && (n <=? 122) ||
   (n =? 170) || (n =? 178) || (n =? 179) || (n =? 181) ||
   (n =? 185) || (n =? 186) || (188 <=? n) && (n <=? 190) ||
   (192 <=? n) && (n <=? 214) || (216 <=? n) && (n <=? 246) ||
   (248 <=? n))%nat.

Fixpoint all_chars (p : ascii -> bool) (s : string) : bool :=
  match s with
  | EmptyString => true
  | String c rest => p c && all_chars p rest
  end.

(** [s.isalnum()]: false on the empty string. *)
Definition isalnum (s : string) : bool :=
  match s with
  | EmptyString => false
  | _ => all_chars isalnum_char s
  end.

(** [s.lower()] on code points below 256. *)
Definition lower_char (c : ascii) : ascii :=
  let n := nat_of_ascii c in
  if ((65 <=? n) && (n <=? 90) ||
      (192 <=? n) && (n <=? 222) && negb (n =? 215))%nat
  then ascii_of_nat (n + 32) else c.

Fixpoint lower (s : string) : string :=
  match s with
  | EmptyString => EmptyString
  | String c rest => String (lower_char c) (lower rest)
  end.

(** [s[i]] for [i >= 0] *)
Definition char_at (s : string) (i : nat) : result ascii :=
  match String.get i s with
  | Some c => Ok c
  | None => Raise IndexError
  end.

(** [s[:-1]] *)
Fixpoint drop_last (s : string) : string :=
  match s with
  | EmptyString => EmptyString
  | String c EmptyString => EmptyString
  | String c rest => String c (drop_last rest)
  end.

(** [l[i]] for [i >= 0], and [l[-1]] *)
Definition item {A : Type} (l : list A) (i : nat) : result A :=
  match l !! i with
  | Some x => Ok x
  | None => Raise IndexError
  end.

Definition last_item {A : Type} (l : list A) : result A :=
  match last l with
  | Some x => Ok x
  | None => Raise IndexError
  end.

(** [not s] for a [str] or [bytes] *)
Definition is_empty (s : string) : bool :=
  match s with
  | EmptyString => true
  | _ => false
  end.

End PyStr.

(** ** [cs_unix_util.py] *)

Module CsUtil.
Import PyStr.

(** What the library reads from outside the interpreter. *)
Record Env : Type := {
  (** [env.current_user_is_production()] *)
  current_user_is_production : bool;
  (** [env.current_machine_is_production_server()] *)
  current_machine_is_production_server : bool;
  (** [os.getenv(name)] *)
  getenv : string -> option string;
  (** [os.path.exists(path)] *)
  path_exists : string -> bool;
  (** the bytes a shell command writes to its standard output *)
  popen_stdout : string -> string;
  (** [bytes.decode('utf-8')], [None] where it raises *)
  utf8_decode : string -> option string;
  (** [cs_db.DataBase.mssql_query(sql)]: the [RUNJOB_CMD] column of the rows
      returned ([None] for a row without a value), or the exception raised *)
  mssql_query : string -> result (list (option string))
}.

(** An f-string field holding a value that may be [None]. *)
Definition fmt (v : option string) : string :=
  match v with
  | Some s => s
  | None => "None"
  end.

(** [get_unix_command_output(unix_cmd)]; [communicate()] gives the bytes of
    the standard output. *)
Definition get_unix_command_output (env : Env) (unix_cmd : string)
  : result string :=
  let output := popen_stdout env unix_cmd in
  if is_empty output then Ok ""
  else
    match utf8_decode env output with
    | Some text => Ok (strip text)
    | None => Raise UnicodeDecodeError
    end.

(** [pub_name, pub_id = parts]: exactly two values are unpacked. *)
Definition unpack2 (parts : list string) : result (string * string) :=
  match parts with
  | [a; b] => Ok (a, b)
  | _ => Raise ValueError
  end.

(** [publish_to_runjob(publish_cmd)] *)
Definition publish_to_runjob (env : Env) (publish_cmd : string)
  : result (option string) :=
  let dir_name :=
    (if current_user_is_production env then "/NAS/mis/jobs"
     else fmt (getenv env "WORKING_JOBS_DIR")) +:+ "/all/publish/scpt" in
  do word <- item (words publish_cmd) 1;
  do pub <- unpack2 (split (lower word) "-");
  let '(pub_name, pub_id) := pub in
  let possible_cfg :=
    dir_name +:+ "/" +:+ pub_name +:+ "-" +:+ pub_id +:+ "_publish.cfg" in
  if path_exists env possible_cfg
  then Ok (Some ("runjob all_publish " +:+ pub_name +:+ "-" +:+ pub_id
                 +:+ "_publish"))
  else
    let possible_cfg := join "" (split possible_cfg "-") in
    if path_exists env possible_cfg
    then Ok (Some ("runjob all_publish " +:+ pub_name +:+ pub_id
                   +:+ "_publish"))
    else Ok None.

Definition LOGFILE_RETRIEVAL_ERROR : string := "<LOGFILE RETRIEVAL ERROR>".

(** The body of the [try] block of [get_runjob_logfile]. *)
Definition get_runjob_logfile_body (env : Env) (runjob_cmd : string)
  : result string :=
  do runjob_cmd <-
    (if startswith runjob_cmd "publish"
     then
       do translated <- publish_to_runjob env runjob_cmd;
       match translated with
       | Some cmd =>
           if is_empty cmd
           then Raise (PyException
                  "No CFG file matching the provided report number found")
           else Ok cmd
       | None =>
           Raise (PyException
             "No CFG file matching the provided report number found")
       end
     else Ok runjob_cmd);
  do job <- item (words runjob_cmd) 1;
  let is_srg := String.eqb job "srg" in
  do identifier <- item (words runjob_cmd) 2;
  let is_prod := current_machine_is_production_server env in
  let base_dir := if is_prod then "/NAS/mis/" else "/NAS/mis/tmp/_" in
  let base_dir := base_dir +:+ (if is_srg then "srg" else "jobs/") in
  let logfile_command (base_dir : string) :=
    "ls -ltr " +:+ base_dir +:+ "/" +:+ identifier +:+ "* | tail -1 "
    +:+ "| awk '{print $NF}'" in
  if is_prod then
    if is_srg then
      let get_srg_name_command :=
        "ls -d " +:+ base_dir +:+ "/*/ | grep " +:+ identifier in
      do listing <- get_unix_command_output env get_srg_name_command;
      do tail <- item (split listing "/NAS/mis/srg/") 1;
      let srg_name := drop_last tail in
      Ok ("/NAS/mis/srg/'" +:+ srg_name +:+ "'/logs/logfile.txt")
    else
      let pieces := split job "_" in
      do piece0 <- item pieces 0;
      do piece1 <- item pieces 1;
      let base_dir := base_dir +:+ piece0 +:+ "/" +:+ piece1 +:+ "/log" in
      get_unix_command_output env (logfile_command base_dir)
  else
    let base_dir := if negb is_srg then base_dir +:+ job else base_dir in
    get_unix_command_output env (logfile_command base_dir).

(** [get_runjob_logfile(runjob_cmd)] *)
Definition get_runjob_logfile (env : Env) (runjob_cmd : string) : string :=
  try_except (get_runjob_logfile_body env runjob_cmd)
             (fun _ => LOGFILE_RETRIEVAL_ERROR).

(** [check_valid_line(line)] *)
Definition check_valid_line (line : string) : bool :=
  if is_empty (strip line) || startswith line "#" || startswith line "//"
  then false else true.

(** [check_ctl_for_runjob(command)]; [readlines] gives the lines of the
    file [open(command)] reads, [None] where it raises. *)
Definition check_ctl_for_runjob (readlines : string -> option (list string))
    (command : string) : result string :=
  match readlines command with
  | None => Raise OSError
  | Some lines =>
      let runjobs_list :=
        fold_left (fun runjobs_list line =>
          let line := strip line in
          if contains "runjob" line && negb (startswith line "#")
          then runjobs_list ++ [line] else runjobs_list) lines [] in
      if (length runjobs_list =? 1)%nat then item runjobs_list 0
      else Ok command
  end.

(** The query text of [get_srg_runjob_command], around the job name. *)
Definition sql_head : string := "
        SELECT 'runjob srg ' + v.[VALUE] AS 'RUNJOB_CMD'
        FROM   MIS_Reports.dbo.ARTFCT_ATTRB_VALUE_V v
            INNER JOIN MIS_Reports.dbo.ARTFCT_DETAILS_VALUES_T pd ON pd.ARTFCT_ID = v.ARTFCT_ID AND pd.ATTRB_ID = 4
            INNER JOIN MIS_Reports.dbo.ARTFCT_DETAILS_VALUES_T j ON j.ARTFCT_ID = v.ARTFCT_ID AND j.ATTRB_ID = 9
        WHERE  ARTFCT_TYPE_CD = 'SRG' AND v.ATTRB_ID = 35 AND pd.VAL_255 = 'P' AND j.val_255 = '".

Definition sql_tail : string := "'
        ".

(** The job name that [get_srg_runjob_command] looks up:
    [f"mis_{job_nm.split('/')[-1].split('praa')[-1].split('.ctl')[0]}_00_c"] *)
Definition srg_job_name (job_nm : string) : result string :=
  do base <- last_item (split job_nm "/");
  do code <- last_item (split base "praa");
  do stem <- item (split code ".ctl") 0;
  Ok ("mis_" +:+ stem +:+ "_00_c").

(** The [try] block of [get_srg_runjob_command]. The source spells its
    [raise] without the call parentheses; it is read as
    [raise Exception(f"No command found ...")]. *)
Definition srg_lookup (env : Env) (job_nm : string) : result (option string) :=
  do data <- mssql_query env (sql_head +:+ job_nm +:+ sql_tail);
  if (1 <? length data)%nat then Ok None
  else if (length data <? 1)%nat
  then Raise (PyException ("No command found for '" +:+ job_nm +:+
         "'; either job name is invalid or data entry is missing"))
  else
    do row <- item data 0;
    Ok row.

(** [get_srg_runjob_command(job_nm)] *)
Definition get_srg_runjob_command (env : Env) (job_nm : string)
  : result (option string) :=
  do job_nm <- srg_job_name job_nm;
  Ok (try_except (srg_lookup env job_nm) (fun _ => None)).

(** *** The results map

    A Python [dict] from command to status: keys unique, kept in the order
    of their first insertion. *)
Definition dict : Type := list (string * string).

Fixpoint dict_get (d : dict) (k : string) : option string :=
  match d with
  | [] => None
  | (k', v) :: d' => if String.eqb k k' then Some v else dict_get d' k
  end.

(** [k in d] *)
Definition dict_mem (d : dict) (k : string) : bool :=
  match dict_get d k with
  | Some _ => true
  | None => false
  end.

(** [d[k] = v] *)
Fixpoint dict_set (d : dict) (k v : string) : dict :=
  match d with
  | [] => [(k, v)]
  | (k', v') :: d' =>
      if String.eqb k k' then (k', v) :: d' else (k', v') :: dict_set d' k v
  end.

(** *** The executor *)

(** The second component of the pair a task returns: a [bool], a [str], or
    [None]. *)
Inductive outcome : Type :=
| OBool (failed : bool)
| OStr (s : string)
| ONone.

(** A coroutine of [run_command_async] wrapped by [asyncio.gather]: not yet
    started, suspended on its child process, returned, or ended by an
    exception. *)
Inductive task : Type :=
| Created
| Awaiting
| Returned (r : string * outcome)
| Failed (e : exn).

(** The event loop during [run_commands_async]: the tasks in the order of
    [commands], the commands for which [create_subprocess_shell] has started
    a child process so far, the dictionary the caller passed in, which every
    task reads in place, and the exception of the first task that raised,
    which is the one [gather] passes on. *)
Record loop : Type := {
  tasks : list task;
  spawned : list string;
  results_dict : dict;
  first_error : option exn
}.

(** The null character. *)
Definition NUL : string := String (ascii_of_nat 0) "".

Section Executor.

(** The commands, the exit status of the child process of the task at each
    position, and the exception, if any, with which the operating system
    refuses to start that child process. *)
Variable commands : list string.
Variable returncode : nat -> Z.
Variable spawn_error : nat -> option exn.

(** [asyncio.create_subprocess_shell(command, ...)] in the task at position
    [i]: the exception it raises, [None] when the child process is started.
    A command that holds a null character is refused with [ValueError]
    before anything is started. *)
Definition create_subprocess_shell (i : nat) (command : string)
  : option exn :=
  if contains NUL command then Some ValueError else spawn_error i.

(** [run_command_async(command, results_dict)], one resumption of the task
    at position [i]: from its start to the first [await] (or to the early
    [return], or to the exception of [create_subprocess_shell], which
    nothing in the task handles), or from the [await] to the [return].
    [None] when the task cannot be resumed. *)
Definition resume (i : nat) (st : loop) : option loop :=
  match commands !! i, tasks st !! i with
  | Some command, Some Created =>
      if dict_mem (results_dict st) command
      then Some {| tasks := <[i := Returned (command, OStr "SKIPPED")]> (tasks st);
                   spawned := spawned st;
                   results_dict := results_dict st;
                   first_error := first_error st |}
      else
        match create_subprocess_shell i command with
        | Some e =>
            Some {| tasks := <[i := Failed e]> (tasks st);
                    spawned := spawned st;
                    results_dict := results_dict st;
                    first_error :=
                      match first_error st with
                      | Some e0 => Some e0
                      | None => Some e
                      end |}
        | None =>
            Some {| tasks := <[i := Awaiting]> (tasks st);
                    spawned := spawned st ++ [command];
                    results_dict := results_dict st;
                    first_error := first_error st |}
        end
  | Some command, Some Awaiting =>
      let failed := if (returncode i =? 0)%Z then false else true in
      Some {| tasks := <[i := Returned (command, OBool failed)]> (tasks st);
              spawned := spawned st;
              results_dict := results_dict st;
              first_error := first_error st |}
  | _, _ => None
  end.

(** One step of the event loop: some task is resumed. *)
Definition step (st st' : loop) : Prop := exists i, resume i st = Some st'.

(** The loop follows a schedule, the positions of the tasks to resume in
    turn; a task that cannot be resumed is passed over. *)
Fixpoint run_loop (schedule : list nat) (st : loop) : loop :=
  match schedule with
  | [] => st
  | i :: schedule' =>
      run_loop schedule' (match resume i st with Some st' => st' | None => st end)
  end.

(** [tasks = [run_command_async(command, results_dict) for command in commands]] *)
Definition create_tasks (results_dict : dict) : loop :=
  {| tasks := map (fun _ => Created) commands;
     spawned := [];
     results_dict := results_dict;
     first_error := None |}.

Definition task_result (t : task) : option (string * outcome) :=
  match t with
  | Returned r => Some r
  | _ => None
  end.

(** [await asyncio.gather] of the tasks, called without
    [return_exceptions]: it raises the exception of the first task that
    raised, as soon as there is one; else it gives the results of the tasks
    in the order of the tasks, once all of them have returned. [None] while
    neither is the case. *)
Definition gather (st : loop) : option (result (list (string * outcome))) :=
  match first_error st with
  | Some e => Some (Raise e)
  | None =>
      match mapM task_result (tasks st) with
      | Some results => Some (Ok results)
      | None => None
      end
  end.

(** [run_commands_async(commands, results_dict)] under a schedule. *)
Definition run_commands_async (schedule : list nat) (results_dict : dict)
  : option (result (list (string * outcome))) * loop :=
  let st := run_loop schedule (create_tasks results_dict) in
  (gather st, st).

End Executor.

End CsUtil.

(** ** [run_bulk_jobs.py] *)

Module RunBulkJobs.
Import PyStr CsUtil.

Definition SCRIPTS_DIR : string := "/NAS/mis/esp/scripts/".

(** Option 1 of [scrub_line]: a bare job code. *)
Definition expand_job_code (line : string) : string :=
  if (String.length line =? 4)%nat && isalnum line
  then "praa" +:+ line +:+ ".ctl"
  else line.

(** [line = line.replace("./", "")] *)
Definition strip_relative (line : string) : string := replace line "./" "".

(** Option 2 of [scrub_line]: a bare CTL file name. *)
Definition absolute_ctl_path (line : string) : string :=
  if startswith line "praa"
  then SCRIPTS_DIR +:+ line +:+ (if endswith line ".ctl" then "" else ".ctl")
  else line.

(** [line.split('/NAS/mis/esp/scripts/praa')[1][1] == "i"] under
    [if ".ctl" in line]. *)
Definition names_srg (line : string) : result bool :=
  if contains ".ctl" line
  then
    do code <- item (split line (SCRIPTS_DIR +:+ "praa")) 1;
    do letter <- char_at code 1;
    Ok (Ascii.eqb letter "i")
  else Ok false.

(** [scrub_line(line)] *)
Definition scrub_line (env : Env) (line : string) : result (string * bool) :=
  let original_line := line in
  let line := expand_job_code line in
  let line := strip_relative line in
  let line := absolute_ctl_path line in
  do srg <- names_srg line;
  if srg then
    do found <- get_srg_runjob_command env line;
    match found with
    | None => Ok (original_line, true)
    | Some runjob =>
        if is_empty runjob then Ok (original_line, true)
        else Ok (runjob, false)
    end
  else Ok (line, false).

(** [has_logfile(command)] *)
Definition has_logfile (command : string) : bool :=
  if existsb (fun script => contains script command) ["runjob"; "publish"]
  then true else false.

(** [os.path.dirname(p)]: the path up to its last slash, without the
    slashes that end it unless it consists of slashes only. *)
Definition is_slash (c : ascii) : bool := Ascii.eqb c "/".

Fixpoint upto_last_slash (p : string) : string :=
  match p with
  | EmptyString => EmptyString
  | String c rest =>
      if contains "/" p then String c (upto_last_slash rest) else EmptyString
  end.

Definition dirname (p : string) : string :=
  let head := upto_last_slash p in
  if negb (is_empty head) && negb (all_chars is_slash head)
  then rstrip_chars is_slash head
  else head.

(** What the script is started with: the library's environment, the lines
    [open(path).readlines()] gives ([None] where it raises), the exit status
    of the child process of each task, the exception with which the
    operating system refuses to start it, if it does, and the order in which
    the event loop resumes the tasks. *)
Record World : Type := {
  env : Env;
  file_lines : string -> option (list string);
  returncode : nat -> Z;
  spawn_error : nat -> option exn;
  schedule : list nat
}.

(** How the interpreter ends: [sys.exit(status)] or the end of the script
    (status 0), an exception nobody handles (the interpreter prints the
    traceback and exits with status 1), or never, when [asyncio.run]
    neither returns nor raises. *)
Inductive ending : Type :=
| Exit (status : Z)
| Unhandled (e : exn)
| Hangs.

Definition exit_status (e : ending) : option Z :=
  match e with
  | Exit status => Some status
  | Unhandled _ => Some 1%Z
  | Hangs => None
  end.

(** What one run of the script did. *)
Record run : Type := {
  ended : ending;
  (** the lines handed to [scrub_line], in order *)
  normalized : list string;
  (** the commands handed to [create_subprocess_shell], in order *)
  executed : list string;
  (** [results_dict], [failure_count] and [skipped_count] at the end *)
  results : dict;
  failure_count : nat;
  skipped_count : nat;
  (** the log files printed in the overview, with their jobs *)
  logfiles : list (string * string)
}.

Definition stopped (e : ending) (normalized executed : list string)
    (results : dict) : run :=
  {| ended := e; normalized := normalized; executed := executed;
     results := results; failure_count := 0; skipped_count := 0;
     logfiles := [] |}.

(** [missing_jira_id] and the first test of the script. *)
Definition missing_jira_id (env : Env) (argv : list string) : bool :=
  current_user_is_production env && (length argv <? 3)%nat.

Definition bad_usage (env : Env) (argv : list string) : bool :=
  negb ((length argv =? 2)%nat || (length argv =? 3)%nat)
  || missing_jira_id env argv.

(** [os.environ[name] = value] *)
Definition setenv (name value : string) (env : Env) : Env :=
  {| current_user_is_production := current_user_is_production env;
     current_machine_is_production_server :=
       current_machine_is_production_server env;
     getenv := fun k => if String.eqb k name then Some value else getenv env k;
     path_exists := path_exists env;
     popen_stdout := popen_stdout env;
     utf8_decode := utf8_decode env;
     mssql_query := mssql_query env |}.

(** The scrubbing loop from position [ind] on: the lines scrubbed so far in
    place, [results_dict], the lines handed to [scrub_line], and the
    exception that stopped the loop, if one did. *)
Record scrubbed : Type := {
  lines_out : list string;
  seeded : dict;
  attempted : list string;
  raised : option exn
}.

Fixpoint scrub_lines (env : Env) (lines : list string) (results_dict : dict)
  : scrubbed :=
  match lines with
  | [] =>
      {| lines_out := []; seeded := results_dict; attempted := [];
         raised := None |}
  | line :: lines' =>
      let arg := strip line in
      match scrub_line env arg with
      | Raise e =>
          {| lines_out := line :: lines'; seeded := results_dict;
             attempted := [arg]; raised := Some e |}
      | Ok (scrubbed_line, skip_ctl) =>
          let results_dict :=
            if skip_ctl then dict_set results_dict scrubbed_line "SKIPPED"
            else results_dict in
          let rest := scrub_lines env lines' results_dict in
          {| lines_out := scrubbed_line :: lines_out rest;
             seeded := seeded rest;
             attempted := arg :: attempted rest;
             raised := raised rest |}
      end
  end.

(** The tally kept by the loop over [result_tuples]. *)
Record tally : Type := {
  t_results : dict;
  t_failures : nat;
  t_skipped : nat
}.

(** [if failed:] *)
Definition truthy (o : outcome) : bool :=
  match o with
  | OBool b => b
  | OStr s => negb (is_empty s)
  | ONone => false
  end.

(** One turn of the loop over [result_tuples]. *)
Definition record_result (t : tally) (r : string * outcome) : tally :=
  let '(command, failed) := r in
  match failed with
  | ONone =>
      {| t_results := dict_set (t_results t) command "LONGRUN";
         t_failures := t_failures t + 1; t_skipped := t_skipped t |}
  | _ =>
      if (match failed with OStr s => String.eqb s "SKIPPED" | _ => false end)
      then {| t_results := t_results t; t_failures := t_failures t;
              t_skipped := t_skipped t + 1 |}
      else if truthy failed
      then {| t_results := dict_set (t_results t) command "FAILURE";
              t_failures := t_failures t + 1; t_skipped := t_skipped t |}
      else {| t_results := dict_set (t_results t) command "SUCCESS";
              t_failures := t_failures t; t_skipped := t_skipped t |}
  end.

(** The log files shown by the overview: for the entries of [results_dict]
    in its order, with value [LONGRUN] or [FAILURE], whose job
    [has_logfile]. *)
Definition overview (env : Env) (results_dict : dict)
  : list (string * string) :=
  flat_map (fun '(k, v) =>
    if (String.eqb v "LONGRUN" || String.eqb v "FAILURE") && has_logfile k
    then [(k, get_runjob_logfile env k)] else []) results_dict.

(** The script, [if __name__ == '__main__':]. *)
Definition main (w : World) (argv : list string) : run :=
  if bad_usage (env w) argv then stopped (Exit 1) [] [] []
  else
    match argv !! 1 with
    | None => stopped (Unhandled IndexError) [] [] []
    | Some input_filename =>
        if negb (path_exists (env w) (dirname input_filename))
        then stopped (Exit 1) [] [] []
        else
          let env :=
            match argv with
            | [_; _; jira] => setenv "WORKING_JIRA_ID" jira (env w)
            | _ => env w
            end in
          match file_lines w input_filename with
          | None => stopped (Unhandled OSError) [] [] []
          | Some text =>
              let lines := List.filter check_valid_line text in
              let s := scrub_lines env lines [] in
              match raised s with
              | Some e => stopped (Unhandled e) (attempted s) [] (seeded s)
              | None =>
                  let '(result_tuples, st) :=
                    run_commands_async (lines_out s) (returncode w)
                                       (spawn_error w) (schedule w)
                                       (seeded s) in
                  match result_tuples with
                  | None =>
                      stopped Hangs (attempted s) (spawned st)
                              (results_dict st)
                  | Some (Raise e) =>
                      stopped (Unhandled e) (attempted s) (spawned st)
                              (results_dict st)
                  | Some (Ok result_tuples) =>
                      let t := fold_left record_result result_tuples
                                 {| t_results := results_dict st;
                                    t_failures := 0; t_skipped := 0 |} in
                      {| ended := Exit 0;
                         normalized := attempted s;
                         executed := spawned st;
                         results := t_results t;
                         failure_count := t_failures t;
                         skipped_count := t_skipped t;
                         logfiles :=
                           if (0 <? t_failures t)%nat
                           then overview env (t_results t) else [] |}
                  end
              end
          end
    end.

End RunBulkJobs.

Import PyStr CsUtil RunBulkJobs.

(** [sub] occurs in [s]. *)
Definition occurs_in (sub s : string) : Prop :=
  exists a b, s = a +:+ sub +:+ b.

(** *** What the executor is expected to do

    The pair the task at position [i] returns for [command], given the
    dictionary [d] it was handed. *)
Definition answer (returncode : nat -> Z) (d : dict) (i : nat)
    (command : string) : string * outcome :=
  (command,
   if dict_mem d command then OStr "SKIPPED"
   else OBool (if (returncode i =? 0)%Z then false else true)).

(** The commands of the tasks that have started a child process. *)
Fixpoint launched (d : dict) (cs : list string) (ts : list task)
  : list string :=
  match cs, ts with
  | c :: cs', t :: ts' =>
      match t with
      | Created | Failed _ => []
      | _ => if dict_mem d c then [] else [c]
      end ++ launched d cs' ts'
  | _, _ => []
  end.

(** How far a task has come. *)
Definition stage (t : task) : nat :=
  match t with
  | Created => 0
  | Awaiting => 1
  | Returned _ => 2
  | Failed _ => 3
  end.

(** The task has got past [create_subprocess_shell]. *)
Definition started (t : task) : bool :=
  match t with
  | Awaiting | Returned _ => true
  | Created | Failed _ => false
  end.

(** The resumptions a task still needs to return or to raise, [c] being its
    command: one from its start if [c] is a key of the dictionary, two if
    not. *)
Definition resumptions_left (d : dict) (c : string) (t : task) : nat :=
  match t with
  | Created => if dict_mem d c then 1 else 2
  | Awaiting => 1
  | Returned _ | Failed _ => 0
  end.

(** What holds of the event loop at every moment of
    [run_commands_async(commands, d)]. *)
Record consistent (commands : list string) (returncode : nat -> Z)
    (spawn_error : nat -> option exn) (d : dict) (st : loop) : Prop := {
  c_dict : results_dict st = d;
  c_length : length (tasks st) = length commands;
  c_returned : forall i r,
    tasks st !! i = Some (Returned r) ->
    exists c, commands !! i = Some c /\ r = answer returncode d i c;
  c_awaiting : forall i c,
    tasks st !! i = Some Awaiting -> commands !! i = Some c ->
    dict_mem d c = false;
  c_failed : forall i e,
    tasks st !! i = Some (Failed e) ->
    exists c, commands !! i = Some c /\ dict_mem d c = false /\
      create_subprocess_shell spawn_error i c = Some e;
  c_error : forall e,
    first_error st = Some e -> exists i, tasks st !! i = Some (Failed e);
  c_spawned : spawned st ≡ₚ launched d commands (tasks st)
}.

(** No command of the batch that is to be executed is refused by
    [create_subprocess_shell]. *)
Definition all_start (commands : list string)
    (spawn_error : nat -> option exn) (d : dict) : Prop :=
  forall i c, commands !! i = Some c -> dict_mem d c = false ->
    create_subprocess_shell spawn_error i c = None.

(** *** Sample environments

    A non-production machine with an empty database, on which every path
    exists and every shell command prints nothing. *)
Definition quiet_env : Env :=
  {| current_user_is_production := false;
     current_machine_is_production_server := false;
     getenv := fun _ => None;
     path_exists := fun _ => true;
     popen_stdout := fun _ => "";
     utf8_decode := fun bytes => Some bytes;
     mssql_query := fun _ => Ok [] |}.

Definition LF : string := String (ascii_of_nat 10) "".

(** A batch file holding the job code [abcd] twice; both child processes
    exit with status 0, and the event loop resumes the tasks in turn. *)
Definition twice_abcd : World :=
  {| env := quiet_env;
     file_lines := fun _ => Some ["abcd" +:+ LF; "abcd" +:+ LF];
     returncode := fun _ => 0%Z;
     spawn_error := fun _ => None;
     schedule := [0; 1; 0; 1] |}.

Definition sample_argv : list string :=
  ["run_bulk_jobs.py"; "/NAS/mis/tmp/jobs_to_run.txt"].

(** A batch on which the event loop never resumes the second task: the
    script does not end. *)
Definition stalled : World :=
  {| env := quiet_env;
     file_lines := fun _ => Some ["abcd" +:+ LF; "1i34" +:+ LF; "ls" +:+ LF];
     returncode := fun _ => 0%Z;
     spawn_error := fun _ => None;
     schedule := [0; 0; 1] |}.

(** A batch holding a CTL file that is not under the scripts directory. *)
Definition foreign_ctl : World :=
  {| env := quiet_env;
     file_lines := fun _ =>
       Some ["ls" +:+ LF; "/NAS/mis/tmp/praa1234.ctl" +:+ LF; "abcd" +:+ LF];
     returncode := fun _ => 0%Z;
     spawn_error := fun _ => None;
     schedule := [0; 1; 2; 0; 1; 2] |}.

(** A batch file in an existing directory that cannot be opened. *)
Definition missing_file : World :=
  {| env := quiet_env;
     file_lines := fun _ => None;
     returncode := fun _ => 0%Z;
     spawn_error := fun _ => None;
     schedule := [] |}.

(** A batch of a job code, a comment, a blank line and a CTL file name; the
    first child process exits with status 0 and the second with status 1,
    the second before the first. *)
Definition mixed_batch : World :=
  {| env := quiet_env;
     file_lines := fun _ =>
       Some ["1234" +:+ LF; "# comment" +:+ LF; LF; "./praa5678.ctl" +:+ LF];
     returncode := fun i => Z.of_nat i;
     spawn_error := fun _ => None;
     schedule := [0; 1; 1; 0] |}.

(** A batch of one [runjob] command whose child process fails. *)
Definition failing_runjob : World :=
  {| env := quiet_env;
     file_lines := fun _ => Some ["runjob all_daily 20240603" +:+ LF];
     returncode := fun _ => 2%Z;
     spawn_error := fun _ => None;
     schedule := [0; 0] |}.

(** The line as it stands after options 1 and 2 of [scrub_line]. *)
Definition located (line : string) : string :=
  absolute_ctl_path (strip_relative (expand_job_code line)).

(** The statuses the loop over [result_tuples] and the scrubbing loop can
    write without a [None] outcome. *)
Definition settled (v : string) : Prop :=
  v = "SKIPPED" \/ v = "FAILURE" \/ v = "SUCCESS".

Definition all_values (P : string -> Prop) (d : dict) : Prop :=
  forall k v, dict_get d k = Some v -> P v.

(** *** Job codes, further samples *)

(** The character [a] does not occur in [s]. *)
Definition absent (a : ascii) (s : string) : bool :=
  all_chars (fun c => negb (Ascii.eqb a c)) s.

(** The test of option 1 of [scrub_line]. *)
Definition is_job_code (line : string) : bool :=
  (String.length line =? 4)%nat && isalnum line.

(** The CTL file of a job code. *)
Definition ctl_path (code : string) : string :=
  SCRIPTS_DIR +:+ "praa" +:+ code +:+ ".ctl".

(** The query [get_srg_runjob_command] sends for a job name. *)
Definition srg_query (job_nm : string) : string :=
  sql_head +:+ job_nm +:+ sql_tail.

(** The statuses of a command that was executed. *)
Definition ran (v : string) : Prop := v = "FAILURE" \/ v = "SUCCESS".

(** A batch of three commands of which the second is excluded, stopped
    while the first child process is still running. *)
Definition midway : loop :=
  run_loop ["ls"; "1i34"; "pwd"] (fun _ => 0%Z) (fun _ => None) [2; 1; 0; 2]
    (create_tasks ["ls"; "1i34"; "pwd"] [("1i34", "SKIPPED")]).


(** The lines of a CTL that [check_ctl_for_runjob] collects. *)
Definition runjob_lines (lines : list string) : list string :=
  List.filter (fun line => contains "runjob" line && negb (startswith line "#"))
    (map strip lines).

(** A production machine on which every listing prints nothing. *)
Definition quiet_production : Env :=
  {| current_user_is_production := true;
     current_machine_is_production_server := true;
     getenv := fun _ => None;
     path_exists := fun _ => false;
     popen_stdout := fun _ => "";
     utf8_decode := fun bytes => Some bytes;
     mssql_query := fun _ => Ok [] |}.

(** A database that knows the run command of the SRG [1i34]. *)
Definition srg_env : Env :=
  {| current_user_is_production := false;
     current_machine_is_production_server := false;
     getenv := fun _ => None;
     path_exists := fun _ => true;
     popen_stdout := fun _ => "";
     utf8_decode := fun bytes => Some bytes;
     mssql_query := fun sql =>
       if String.eqb sql (srg_query "mis_1i34_00_c")
       then Ok [Some "runjob srg ABC123"] else Ok [] |}.

(** The same world under another schedule of the event loop. *)
Definition rescheduled (w : World) (schedule : list nat) : World :=
  {| env := env w; file_lines := file_lines w;
     returncode := returncode w; spawn_error := spawn_error w;
     schedule := schedule |}.


(** [logfile_command] of [get_runjob_logfile], for a directory and an
    identifier. *)
Definition logfile_command (base_dir identifier : string) : string :=
  "ls -ltr " +:+ base_dir +:+ "/" +:+ identifier +:+ "* | tail -1 "
  +:+ "| awk '{print $NF}'".


(** A production machine whose SRG directory holds [ABC123 Sales]. *)
Definition production_srg : Env :=
  {| current_user_is_production := true;
     current_machine_is_production_server := true;
     getenv := fun _ => None;
     path_exists := fun _ => false;
     popen_stdout := fun unix_cmd =>
       if String.eqb unix_cmd "ls -d /NAS/mis/srg/*/ | grep ABC123"
       then "/NAS/mis/srg/ABC123 Sales/" +:+ LF else "";
     utf8_decode := fun bytes => Some bytes;
     mssql_query := fun _ => Ok [] |}.

(** A batch of one command that reads a file of the parent directory. *)
Definition parent_path : World :=
  {| env := quiet_env;
     file_lines := fun _ => Some ["cat ../data/x.txt" +:+ LF];
     returncode := fun _ => 0%Z;
     spawn_error := fun _ => None;
     schedule := [0; 0] |}.

(** A batch whose second line holds a null character. *)
Definition null_line : World :=
  {| env := quiet_env;
     file_lines := fun _ => Some ["pwd" +:+ LF; "l" +:+ NUL +:+ "s" +:+ LF];
     returncode := fun _ => 0%Z;
     spawn_error := fun _ => None;
     schedule := [0; 1; 0; 1] |}.

(** * Properties *)

(** Case analysis on the first step of a computation that may raise. *)
Ltac case_bind :=
  match goal with
  | |- context [bind ?m _] =>
      let H := fresh "Hbind" in destruct m eqn:H; cbn [bind try_except]
  end.

(** ** Strings *)

Section StringFacts.

Lemma append_cons (c : ascii) (s t : string) :
  String c s +:+ t = String c (s +:+ t).
Proof. reflexivity. Qed.

Lemma append_nil_l (s : string) : "" +:+ s = s.
Proof. reflexivity. Qed.

Lemma append_nil_r (s : string) : s +:+ "" = s.
Proof.
  induction s as [|c s IH]; [reflexivity | now rewrite append_cons, IH].
Qed.

Lemma append_assoc (a b c : string) : (a +:+ b) +:+ c = a +:+ b +:+ c.
Proof.
  induction a as [|x a IH]; [reflexivity | now rewrite !append_cons, IH].
Qed.

Lemma length_append (a b : string) :
  String.length (a +:+ b) = String.length a + String.length b.
Proof.
  induction a as [|x a IH]; [reflexivity|].
  rewrite append_cons. simpl. now rewrite IH.
Qed.

Lemma startswith_iff (s p : string) :
  startswith s p = true <-> exists t, s = p +:+ t.
Proof.
  revert s. induction p as [|a p IH]; intros s; simpl.
  - split; [intros _; now exists s | reflexivity].
  - destruct s as [|b s].
    + split; [discriminate | intros [t Ht]; discriminate].
    + destruct (Ascii.eqb_spec a b) as [->|Hne].
      * rewrite IH. split; intros [t Ht]; exists t;
          rewrite append_cons in *; congruence.
      * split; [discriminate|].
        intros [t Ht]. rewrite append_cons in Ht. congruence.
Qed.

Lemma startswith_append (p t : string) : startswith (p +:+ t) p = true.
Proof. apply startswith_iff. now exists t. Qed.

Lemma contains_iff (sub s : string) :
  contains sub s = true <-> occurs_in sub s.
Proof.
  unfold occurs_in. induction s as [|c s IH].
  - simpl. rewrite orb_false_r, startswith_iff. split.
    + intros [t Ht]. exists "", t. exact Ht.
    + intros [[|x a] [b Hb]]; [now exists b | discriminate].
  - cbn [contains]. rewrite orb_true_iff, IH, startswith_iff. split.
    + intros [[t Ht] | (a & b & Hab)].
      * exists "", t. exact Ht.
      * exists (String c a), b. now rewrite append_cons, Hab.
    + intros ([|x a] & b & Hab).
      * left. now exists b.
      * right. exists a, b. rewrite append_cons in Hab. congruence.
Qed.

(** *** Scanning for a separator: [replace] and [split] *)

Lemma replace_from_skip (old new u t : string) :
  replace_from old new (String.length u) (u +:+ t) = replace_from old new 0 t.
Proof.
  induction u as [|c u IH]; [now destruct t|].
  rewrite append_cons. simpl. exact IH.
Qed.

Lemma split_from_skip (sep u t : string) :
  split_from sep (String.length u) (u +:+ t) = split_from sep 0 t.
Proof.
  induction u as [|c u IH]; [now destruct t|].
  rewrite append_cons. simpl. exact IH.
Qed.

Lemma replace_empty (old new : string) : replace "" old new = "".
Proof. reflexivity. Qed.

Lemma replace_match (old new t : string) :
  old <> "" -> replace (old +:+ t) old new = new +:+ replace t old new.
Proof.
  intros Hne. unfold replace. destruct old as [|a o]; [congruence|].
  pose proof (startswith_append (String a o) t) as Hs.
  rewrite append_cons in *. cbn [replace_from]. rewrite Hs.
  cbn [String.length pred]. now rewrite replace_from_skip.
Qed.

Lemma replace_miss (old new : string) (c : ascii) (r : string) :
  startswith (String c r) old = false ->
  replace (String c r) old new = String c (replace r old new).
Proof. intros Hs. unfold replace. cbn [replace_from]. now rewrite Hs. Qed.

Lemma split_empty (sep : string) : split "" sep = [""].
Proof. reflexivity. Qed.

Lemma split_match (sep t : string) :
  sep <> "" -> split (sep +:+ t) sep = "" :: split t sep.
Proof.
  intros Hne. unfold split. destruct sep as [|a o]; [congruence|].
  pose proof (startswith_append (String a o) t) as Hs.
  rewrite append_cons in *. cbn [split_from]. rewrite Hs.
  cbn [String.length pred]. now rewrite split_from_skip.
Qed.

Lemma split_miss (sep : string) (c : ascii) (r : string) :
  startswith (String c r) sep = false ->
  split (String c r) sep = push_head c (split r sep).
Proof. intros Hs. unfold split. cbn [split_from]. now rewrite Hs. Qed.

(** Induction along the scan: the empty string, a string that starts with
    the separator, and a string whose first character is passed over. *)
Lemma scan_ind (sep : string) (Hne : sep <> "") (P : string -> Prop) :
  P "" ->
  (forall t, P t -> P (sep +:+ t)) ->
  (forall c r, startswith (String c r) sep = false -> P r -> P (String c r)) ->
  forall s, P s.
Proof.
  intros Hnil Hmatch Hmiss s.
  remember (String.length s) as n eqn:Hn. revert s Hn.
  induction n as [n IH] using lt_wf_ind. intros s Hn.
  destruct s as [|c r]; [exact Hnil|].
  destruct (startswith (String c r) sep) eqn:Hs.
  - apply startswith_iff in Hs as [t Ht]. rewrite Ht. apply Hmatch.
    destruct sep as [|a o]; [congruence|].
    apply (IH (String.length t)); [|reflexivity].
    rewrite Hn, Ht, length_append. simpl. lia.
  - apply Hmiss; [exact Hs|].
    apply (IH (String.length r)); [simpl in Hn; lia | reflexivity].
Qed.

Lemma split_nonempty (s sep : string) : split s sep <> [].
Proof.
  destruct sep as [|a o] eqn:Hsep.
  - unfold split. induction s as [|c r IH]; [discriminate|].
    cbn [split_from startswith]. discriminate.
  - rewrite <- Hsep. assert (Hne : sep <> "") by (subst; discriminate).
    clear Hsep. induction s as [|t IH|c r Hs IH] using (scan_ind sep Hne).
    + discriminate.
    + now rewrite split_match.
    + rewrite split_miss by assumption. now destruct (split r sep).
Qed.

Lemma join_empty_cons (p : string) (ps : list string) :
  join "" (p :: ps) = p +:+ join "" ps.
Proof. destruct ps; simpl; [now rewrite append_nil_r | reflexivity]. Qed.

Lemma join_cons (sep p : string) (ps : list string) :
  ps <> [] -> join sep (p :: ps) = p +:+ sep +:+ join sep ps.
Proof. now destruct ps. Qed.

Lemma join_push_head (sep : string) (c : ascii) (ps : list string) :
  ps <> [] -> join sep (push_head c ps) = String c (join sep ps).
Proof. intros Hne. destruct ps as [|p [|q ps]]; [congruence|reflexivity..]. Qed.

(** [replace] with nothing is [split] and [join] without a separator. *)
Lemma replace_is_split_join (s sep : string) :
  sep <> "" -> replace s sep "" = join "" (split s sep).
Proof.
  intros Hne. induction s as [|t IH|c r Hs IH] using (scan_ind sep Hne).
  - reflexivity.
  - rewrite replace_match, split_match, join_empty_cons by assumption.
    now rewrite IH.
  - rewrite replace_miss, split_miss by assumption.
    pose proof (split_nonempty r sep) as Hsplit.
    rewrite IH. destruct (split r sep) as [|p ps]; [congruence|].
    cbn [push_head]. now rewrite !join_empty_cons, append_cons.
Qed.

(** [split] loses nothing: joining the pieces gives the string back. *)
Lemma join_split (s sep : string) :
  sep <> "" -> join sep (split s sep) = s.
Proof.
  intros Hne. induction s as [|t IH|c r Hs IH] using (scan_ind sep Hne).
  - reflexivity.
  - rewrite split_match by assumption.
    rewrite join_cons by apply split_nonempty. now rewrite IH.
  - rewrite split_miss by assumption.
    rewrite join_push_head by apply split_nonempty. now rewrite IH.
Qed.

Lemma startswith_longer (s p t : string) :
  startswith s p = true -> startswith (s +:+ t) p = true.
Proof.
  rewrite !startswith_iff. intros [u ->]. exists (u +:+ t).
  apply append_assoc.
Qed.

(** The separator occurs in no piece. *)
Lemma split_pieces_clean (s sep : string) :
  sep <> "" -> Forall (fun p => contains sep p = false) (split s sep).
Proof.
  intros Hne. induction s as [|t IH|c r Hs IH] using (scan_ind sep Hne).
  - constructor; [|constructor]. destruct sep; [congruence | reflexivity].
  - rewrite split_match by assumption. constructor; [|exact IH].
    destruct sep; [congruence | reflexivity].
  - rewrite split_miss by assumption.
    pose proof (join_split r sep Hne) as Hr.
    pose proof (split_nonempty r sep) as Hsplit.
    destruct (split r sep) as [|p ps]; [congruence|].
    apply Forall_cons in IH as [Hp Hps]. constructor; [|exact Hps].
    cbn [contains]. rewrite Hp, orb_false_r.
    destruct (startswith (String c p) sep) eqn:Hcp; [|reflexivity].
    rewrite <- Hs, <- Hr. symmetry.
    destruct ps as [|q ps]; [exact Hcp|].
    cbn [join]. rewrite <- append_cons. now apply startswith_longer.
Qed.

(** Without an occurrence of [old], [replace] changes nothing. *)
Lemma replace_absent (s old new : string) :
  contains old s = false -> replace s old new = s.
Proof.
  induction s as [|c r IH]; [reflexivity|].
  cbn [contains]. intros [Hs Hr]%orb_false_iff.
  rewrite replace_miss by assumption. now rewrite IH.
Qed.

End StringFacts.

(** ** The job classifier *)

(** C8. [has_logfile] answers true exactly for the commands in which
    [runjob] or [publish] occurs as a substring; being a function of the
    command alone, it reads and changes no state. *)
Theorem has_logfile_iff_token (command : string) :
  has_logfile command = true <->
  occurs_in "runjob" command \/ occurs_in "publish" command.
Proof.
  unfold has_logfile. cbn [existsb].
  rewrite orb_false_r, <- !contains_iff.
  destruct (contains "runjob" command), (contains "publish" command);
    simpl; intuition congruence.
Qed.

(** ** The executor *)

Section ExecutorFacts.

Variable commands : list string.
Variable returncode : nat -> Z.
Variable spawn_error : nat -> option exn.
Variable d : dict.

Local Abbreviation consistent :=
  (consistent commands returncode spawn_error d).
Local Abbreviation resume := (resume commands returncode spawn_error).
Local Abbreviation step := (step commands returncode spawn_error).
Local Abbreviation run_loop := (run_loop commands returncode spawn_error).

Lemma launched_created (cs : list string) :
  launched d cs (map (fun _ => Created) cs) = [].
Proof. induction cs as [|c cs IH]; simpl; auto. Qed.

Lemma launched_insert_same (cs : list string) (ts : list task) i c t t' :
  cs !! i = Some c -> ts !! i = Some t ->
  dict_mem d c = true \/ started t = started t' ->
  launched d cs (<[i := t']> ts) = launched d cs ts.
Proof.
  revert ts i. induction cs as [|c0 cs IH]; intros [|t0 ts] [|i] Hc Ht Hs;
    simplify_eq/=; try reflexivity.
  - f_equal. destruct Hs as [->|Hs]; [now destruct t, t'|].
    destruct t, t'; simpl in *; try reflexivity; discriminate.
  - f_equal. eauto.
Qed.

Lemma launched_insert_start (cs : list string) (ts : list task) i c :
  cs !! i = Some c -> ts !! i = Some Created -> dict_mem d c = false ->
  launched d cs (<[i := Awaiting]> ts) ≡ₚ launched d cs ts ++ [c].
Proof.
  revert ts i. induction cs as [|c0 cs IH]; intros [|t0 ts] [|i] Hc Ht Hd;
    simplify_eq/=.
  - rewrite Hd. apply Permutation_cons_append.
  - rewrite (IH ts i) by assumption. now rewrite app_assoc.
Qed.

Lemma consistent_create_tasks : consistent (create_tasks commands d).
Proof.
  split; simpl.
  - reflexivity.
  - apply length_map.
  - intros i r H. rewrite list_lookup_fmap in H.
    destruct (commands !! i); simplify_eq/=.
  - intros i c H. rewrite list_lookup_fmap in H.
    destruct (commands !! i); simplify_eq/=.
  - intros i e H. rewrite list_lookup_fmap in H.
    destruct (commands !! i); simplify_eq/=.
  - discriminate.
  - now rewrite launched_created.
Qed.

(** The task at a position after the task at [i] has been replaced. *)
Lemma lookup_insert_cases (ts : list task) i j t t' :
  ts !! i = Some t -> <[i := t']> ts !! j = Some t ->
  (j = i /\ t = t') \/ (j <> i /\ ts !! j = Some t).
Proof.
  intros Hi Hj. destruct (decide (i = j)) as [->|Hne].
  - rewrite list_lookup_insert_eq in Hj by (eapply lookup_lt_Some; eauto).
    left. split; congruence.
  - rewrite list_lookup_insert_ne in Hj by assumption. right. auto.
Qed.

Lemma lookup_insert_other (ts : list task) i j t0 t t' :
  ts !! i = Some t0 -> <[i := t']> ts !! j = Some t -> t <> t' ->
  j <> i /\ ts !! j = Some t.
Proof.
  intros Hi Hj Hne. destruct (decide (i = j)) as [->|Hij].
  - rewrite list_lookup_insert_eq in Hj by (eapply lookup_lt_Some; eauto).
    congruence.
  - rewrite list_lookup_insert_ne in Hj by assumption. auto.
Qed.

Lemma lookup_insert_keeps (ts : list task) i j t0 t t' :
  ts !! i = Some t0 -> t0 <> t -> ts !! j = Some t ->
  <[i := t']> ts !! j = Some t.
Proof.
  intros Hi Hne Hj. rewrite list_lookup_insert_ne; [assumption|].
  intros ->. congruence.
Qed.

(** What resuming a task does to the tasks: the task at [i] goes from [t]
    to [t'], the others stay. *)
Lemma consistent_replace st i c t t' spawned' error' :
  consistent st -> commands !! i = Some c -> tasks st !! i = Some t ->
  (forall r, t <> Returned r) -> (forall e, t <> Failed e) ->
  (forall r, t' = Returned r -> r = answer returncode d i c) ->
  (t' = Awaiting -> dict_mem d c = false) ->
  (forall e, t' = Failed e ->
     dict_mem d c = false /\
     create_subprocess_shell spawn_error i c = Some e) ->
  (forall e, error' = Some e ->
     first_error st = Some e \/ t' = Failed e) ->
  spawned' ≡ₚ launched d commands (<[i := t']> (tasks st)) ->
  consistent {| tasks := <[i := t']> (tasks st); spawned := spawned';
                results_dict := results_dict st; first_error := error' |}.
Proof.
  intros [Hd Hlen Hret Haw Hfail Herr Hsp] Hc Ht Hnr Hnf Hr' Ha' Hf' He' Hs'.
  split; cbn [tasks spawned results_dict first_error].
  - exact Hd.
  - now rewrite length_insert.
  - intros j r Hj.
    destruct (decide (i = j)) as [<-|Hne].
    + rewrite list_lookup_insert_eq in Hj by (eapply lookup_lt_Some; eauto).
      injection Hj as Hj. exists c. split; [assumption | now apply Hr'].
    + rewrite list_lookup_insert_ne in Hj by assumption. eauto.
  - intros j c' Hj Hc'.
    destruct (decide (i = j)) as [<-|Hne].
    + rewrite list_lookup_insert_eq in Hj by (eapply lookup_lt_Some; eauto).
      injection Hj as Hj. assert (c' = c) as -> by congruence. auto.
    + rewrite list_lookup_insert_ne in Hj by assumption. eauto.
  - intros j e Hj.
    destruct (decide (i = j)) as [<-|Hne].
    + rewrite list_lookup_insert_eq in Hj by (eapply lookup_lt_Some; eauto).
      injection Hj as Hj. exists c. split; [assumption | now apply Hf'].
    + rewrite list_lookup_insert_ne in Hj by assumption. eauto.
  - intros e He. destruct (He' e He) as [Hold| ->].
    + destruct (Herr e Hold) as [j Hj]. exists j.
      eapply lookup_insert_keeps; eauto.
    + exists i. apply list_lookup_insert_eq. eapply lookup_lt_Some; eauto.
  - exact Hs'.
Qed.

Lemma consistent_resume i st st' :
  consistent st -> resume i st = Some st' -> consistent st'.
Proof.
  intros Hst Hres. pose proof (c_dict _ _ _ _ _ Hst) as Hd.
  pose proof (c_spawned _ _ _ _ _ Hst) as Hsp.
  unfold CsUtil.resume in Hres.
  destruct (commands !! i) as [c|] eqn:Hc; [|discriminate].
  destruct (tasks st !! i) as [[| |r|e]|] eqn:Ht; try discriminate.
  - (* the task starts *)
    destruct (dict_mem (results_dict st) c) eqn:Hmem; rewrite Hd in Hmem.
    + injection Hres as <-.
      eapply consistent_replace; eauto; try discriminate.
      * intros r [= <-]. unfold answer. now rewrite Hmem.
      * erewrite launched_insert_same; eauto.
    + destruct (create_subprocess_shell spawn_error i c) as [e|] eqn:He;
        injection Hres as <-.
      * eapply consistent_replace; eauto; try discriminate.
        -- intros e' [= <-]. auto.
        -- intros e'. destruct (first_error st); intros [= <-]; auto.
        -- erewrite launched_insert_same; eauto.
      * eapply consistent_replace; eauto; try discriminate.
        rewrite launched_insert_start by eassumption.
        now apply Permutation_app_tail.
  - (* the child process of the task has exited *)
    injection Hres as <-.
    eapply consistent_replace; eauto; try discriminate.
    + intros r [= <-]. unfold answer.
      now rewrite (c_awaiting _ _ _ _ _ Hst i c).
    + erewrite launched_insert_same; eauto.
Qed.

Lemma consistent_reachable st :
  rtc step (create_tasks commands d) st -> consistent st.
Proof.
  intros H.
  eapply (rtc_ind_r (fun st => consistent st)); [ | | exact H].
  - apply consistent_create_tasks.
  - intros y z _ [i Hi] Hy. eauto using consistent_resume.
Qed.

Lemma run_loop_reachable schedule st :
  rtc step st (run_loop schedule st).
Proof.
  revert st. induction schedule as [|i schedule IH]; intros st; simpl.
  - constructor.
  - destruct (resume i st) as [st'|] eqn:Hi; [|apply IH].
    eapply rtc_l; [exists i; exact Hi | apply IH].
Qed.

Lemma consistent_run_loop schedule :
  consistent (run_loop schedule (create_tasks commands d)).
Proof. apply consistent_reachable, run_loop_reachable. Qed.

Lemma gather_returned (ts : list task) res :
  mapM task_result ts = Some res -> Forall (fun t => stage t = 2) ts.
Proof.
  rewrite mapM_Some. induction 1 as [|t r ts rs Ht _ IH]; constructor; auto.
  now destruct t.
Qed.

Lemma launched_returned (cs : list string) (ts : list task) :
  length ts = length cs -> Forall (fun t => stage t = 2) ts ->
  launched d cs ts = List.filter (fun c => negb (dict_mem d c)) cs.
Proof.
  revert ts. induction cs as [|c cs IH]; intros [|t ts] Hlen Hall;
    simplify_eq/=; [reflexivity|].
  apply Forall_cons in Hall as [Ht Hall]. rewrite (IH ts) by assumption.
  destruct t; simplify_eq/=; now destruct (dict_mem d c).
Qed.

(** [gather] gives a list only when no task has raised and all have
    returned. *)
Lemma gather_ok st res :
  gather st = Some (Ok res) ->
  first_error st = None /\ mapM task_result (tasks st) = Some res.
Proof.
  unfold gather. destruct (first_error st); [discriminate|].
  destruct (mapM task_result (tasks st)); [|discriminate].
  now intros [= ->].
Qed.

(** Once every task has returned, [gather] gives the answers in the order
    of the commands, and the child processes started are those of the
    commands that are not keys of the dictionary. *)
Lemma gather_answers st res :
  consistent st -> gather st = Some (Ok res) ->
  res = imap (answer returncode d) commands.
Proof.
  intros Hst [_ Hres]%gather_ok. apply mapM_Some in Hres.
  pose proof (Forall2_length _ _ _ Hres) as Hlen.
  rewrite (c_length _ _ _ _ _ Hst) in Hlen.
  apply list_eq. intros i. rewrite list_lookup_imap.
  destruct (res !! i) as [r|] eqn:Hr.
  - destruct (Forall2_lookup_r _ _ _ _ _ Hres Hr) as (t & Ht & Htr).
    destruct t; simplify_eq/=.
    destruct (c_returned _ _ _ _ _ Hst _ _ Ht) as (c & -> & ->). reflexivity.
  - apply lookup_ge_None in Hr. rewrite <- Hlen in Hr.
    apply lookup_ge_None in Hr. now rewrite Hr.
Qed.

Lemma gather_spawned st res :
  consistent st -> gather st = Some (Ok res) ->
  spawned st ≡ₚ List.filter (fun c => negb (dict_mem d c)) commands.
Proof.
  intros Hst [_ Hres]%gather_ok. rewrite (c_spawned _ _ _ _ _ Hst).
  rewrite launched_returned; eauto using c_length, gather_returned.
Qed.

(** What [gather] raises is the exception with which
    [create_subprocess_shell] refused a command of the batch. *)
Lemma gather_raises st e :
  consistent st -> gather st = Some (Raise e) ->
  exists i c, commands !! i = Some c /\ dict_mem d c = false /\
    create_subprocess_shell spawn_error i c = Some e.
Proof.
  intros Hst Hg. unfold gather in Hg.
  destruct (first_error st) as [e0|] eqn:He.
  - injection Hg as ->. destruct (c_error _ _ _ _ _ Hst _ He) as [i Hi].
    destruct (c_failed _ _ _ _ _ Hst _ _ Hi) as (c & Hc & Hmem & Hsp).
    eauto.
  - destruct (mapM task_result (tasks st)); discriminate.
Qed.

(** Each resumption of a task leaves it one resumption less to go, until
    it has returned or raised; the other tasks stay where they are. *)
Lemma resume_left i st j c t :
  results_dict st = d -> length (tasks st) = length commands ->
  commands !! j = Some c -> tasks st !! j = Some t ->
  let st' := match resume i st with Some st' => st' | None => st end in
  results_dict st' = d /\
  length (tasks st') = length commands /\
  exists t', tasks st' !! j = Some t' /\
    resumptions_left d c t' <=
    resumptions_left d c t - (if decide (i = j) then 1 else 0).
Proof.
  intros Hd Hlen Hc Hj. unfold CsUtil.resume.
  assert (Hlt : j < length (tasks st)) by (eapply lookup_lt_Some; eauto).
  destruct (decide (i = j)) as [->|Hne].
  - rewrite Hc, Hj, Hd.
    destruct t as [| |r|e];
      [destruct (dict_mem d c) eqn:Hmem;
       [|destruct (create_subprocess_shell spawn_error j c)]| | |];
      cbn [tasks results_dict]; rewrite ?length_insert;
      (split; [first [assumption | reflexivity]|]); (split; [assumption|]);
      rewrite ?list_lookup_insert_eq by assumption;
      eexists; (split; [first [reflexivity | eassumption]|]);
      cbn [resumptions_left]; rewrite ?Hmem; lia.
  - destruct (commands !! i) as [c'|]; [|eauto 10 with lia].
    destruct (tasks st !! i) as [[| |r|e]|];
      [destruct (dict_mem _ c');
       [|destruct (create_subprocess_shell spawn_error i c')]| | | |];
      cbn [tasks results_dict]; rewrite ?length_insert;
      rewrite ?list_lookup_insert_ne by assumption; eauto 10 with lia.
Qed.

Lemma run_loop_left schedule : forall st j c t,
  results_dict st = d -> length (tasks st) = length commands ->
  commands !! j = Some c -> tasks st !! j = Some t ->
  exists t', tasks (run_loop schedule st) !! j = Some t' /\
    resumptions_left d c t' <=
    resumptions_left d c t - count_occ Nat.eq_dec schedule j.
Proof.
  induction schedule as [|i schedule IH]; intros st j c t Hd Hlen Hc Hj;
    cbn [CsUtil.run_loop count_occ].
  - exists t. split; [assumption | lia].
  - destruct (resume_left i st j c t Hd Hlen Hc Hj)
      as (Hd' & Hlen' & t1 & Hj' & Hleft).
    destruct (IH _ j c t1 Hd' Hlen' Hc Hj') as (t' & Ht' & Hfinal).
    exists t'. split; [exact Ht'|].
    destruct (Nat.eq_dec i j), (decide (i = j)); try contradiction; lia.
Qed.

(** A schedule that names every position as often as its task needs, once
    for a task that returns at once and twice for one that awaits its child
    process, lets every task return or raise: [gather] does not stay
    pending. *)
Lemma fair_schedule_settles schedule :
  (forall i c, commands !! i = Some c ->
     resumptions_left d c Created <= count_occ Nat.eq_dec schedule i) ->
  Forall (fun t => resumptions_left d "" t = 0)
    (tasks (run_loop schedule (create_tasks commands d))).
Proof.
  intros Hfair. apply Forall_lookup. intros i t Hi.
  assert (Hlt : i < length commands).
  { apply lookup_lt_Some in Hi.
    now rewrite (c_length _ _ _ _ _ (consistent_run_loop schedule)) in Hi. }
  destruct (lookup_lt_is_Some_2 _ _ Hlt) as [c Hc].
  destruct (run_loop_left schedule (create_tasks commands d) i c Created)
    as (t' & Ht' & Hleft); try reflexivity.
  - simpl. apply length_map.
  - exact Hc.
  - simpl. now rewrite list_lookup_fmap, Hc.
  - specialize (Hfair i c Hc). simplify_eq.
    destruct t; cbn [resumptions_left] in *;
      try reflexivity; destruct (dict_mem d c); lia.
Qed.

(** When, besides, every command to execute can be started, every task
    returns and [gather] gives their results. *)
Lemma fair_schedule_returns schedule :
  (forall i c, commands !! i = Some c ->
     resumptions_left d c Created <= count_occ Nat.eq_dec schedule i) ->
  all_start commands spawn_error d ->
  exists res,
    gather (run_loop schedule (create_tasks commands d)) = Some (Ok res).
Proof.
  intros Hfair Hstart.
  pose proof (consistent_run_loop schedule) as Hst.
  pose proof (fair_schedule_settles schedule Hfair) as Hall.
  assert (Hnofail : forall i e,
    tasks (run_loop schedule (create_tasks commands d)) !! i
    <> Some (Failed e)).
  { intros i e Hi.
    destruct (c_failed _ _ _ _ _ Hst _ _ Hi) as (c & Hc & Hmem & Hsp).
    rewrite (Hstart i c Hc Hmem) in Hsp. discriminate. }
  unfold gather.
  destruct (first_error _) as [e|] eqn:He.
  { destruct (c_error _ _ _ _ _ Hst _ He) as [i Hi].
    now destruct (Hnofail i e). }
  destruct (mapM task_result _) as [res|] eqn:Hres; [eauto|].
  exfalso. apply eq_None_not_Some in Hres. apply Hres.
  apply mapM_is_Some, Forall_lookup. intros i t Hi.
  rewrite Forall_lookup in Hall. specialize (Hall i t Hi).
  destruct t as [| |r|e]; cbn [resumptions_left] in Hall;
    [destruct (dict_mem d ""); discriminate | discriminate
    | simpl; eauto | now destruct (Hnofail i e)].
Qed.

End ExecutorFacts.

(** ** The results map *)

Section DictFacts.

Lemma dict_get_set (d : dict) (k v k' : string) :
  dict_get (dict_set d k v) k' =
  if String.eqb k' k then Some v else dict_get d k'.
Proof.
  induction d as [|[k0 v0] d IH]; simpl.
  - reflexivity.
  - destruct (String.eqb_spec k k0) as [->|Hne]; simpl.
    + now destruct (String.eqb k' k0).
    + rewrite IH. destruct (String.eqb_spec k' k0) as [->|Hne'];
        [|reflexivity].
      destruct (String.eqb_spec k0 k); congruence.
Qed.

Lemma all_values_set (P : string -> Prop) (d : dict) (k v : string) :
  all_values P d -> P v -> all_values P (dict_set d k v).
Proof.
  intros Hd Hv k' v'. rewrite dict_get_set.
  destruct (String.eqb k' k); [congruence | apply Hd].
Qed.

Lemma all_values_impl (P Q : string -> Prop) (d : dict) :
  (forall v, P v -> Q v) -> all_values P d -> all_values Q d.
Proof. unfold all_values. eauto. Qed.

Lemma all_values_empty (P : string -> Prop) : all_values P [].
Proof. intros k v. discriminate. Qed.

End DictFacts.

(** ** The orchestrator *)

Section MainFacts.

(** Before the executor is called, the map holds [SKIPPED] entries only. *)
Lemma scrub_lines_seeded (e : Env) (lines : list string) : forall d,
  all_values (eq "SKIPPED") d ->
  all_values (eq "SKIPPED") (seeded (scrub_lines e lines d)).
Proof.
  induction lines as [|line lines IH]; intros d Hd; simpl; [assumption|].
  destruct (scrub_line e (strip line)) as [[cmd skip]|err]; simpl;
    [|assumption].
  apply IH. destruct skip; [|assumption]. now apply all_values_set.
Qed.

Lemma record_result_settled (t : tally) (r : string * outcome) :
  r.2 <> ONone -> all_values settled (t_results t) ->
  all_values settled (t_results (record_result t r)).
Proof.
  destruct r as [c o]. unfold record_result, settled. simpl. intros Ho Ht.
  destruct o as [[]|s|]; simpl; try congruence;
    try (apply all_values_set; auto).
  destruct (String.eqb s "SKIPPED"); [assumption|].
  destruct (is_empty s); simpl; apply all_values_set; auto.
Qed.

Lemma fold_record_result_settled (rs : list (string * outcome)) : forall t,
  Forall (fun r => r.2 <> ONone) rs -> all_values settled (t_results t) ->
  all_values settled (t_results (fold_left record_result rs t)).
Proof.
  induction rs as [|r rs IH]; intros t Hrs Ht; simpl; [assumption|].
  apply Forall_cons in Hrs as [Hr Hrs].
  apply IH; [assumption|]. now apply record_result_settled.
Qed.

Lemma answers_not_none (rc : nat -> Z) (d : dict) (cs : list string) :
  Forall (fun r => r.2 <> ONone) (imap (answer rc d) cs).
Proof.
  apply Forall_lookup. intros i r. rewrite list_lookup_imap.
  destruct (cs !! i) as [c|]; [|discriminate].
  intros [= <-]. unfold answer. simpl. now destruct (dict_mem d c).
Qed.

Lemma answers_fst (rc : nat -> Z) (d : dict) (cs : list string) :
  (imap (answer rc d) cs).*1 = cs.
Proof.
  apply list_eq. intros i. rewrite list_lookup_fmap, list_lookup_imap.
  now destruct (cs !! i).
Qed.

(** The script ends in one of a few ways; what its map then holds. *)
Lemma main_results_settled (w : World) (argv : list string) :
  all_values settled (results (main w argv)).
Proof.
  unfold main.
  destruct (bad_usage _ _); [apply all_values_empty|].
  destruct (argv !! 1) as [input_filename|]; [|apply all_values_empty].
  destruct (negb _); [apply all_values_empty|].
  destruct (file_lines w input_filename) as [text|];
    [|apply all_values_empty].
  set (e := match argv with [_; _; jira] => _ | _ => _ end).
  set (lines := List.filter check_valid_line text).
  assert (Hseed : all_values settled (seeded (scrub_lines e lines []))).
  { eapply all_values_impl;
      [|apply scrub_lines_seeded, all_values_empty].
    intros v <-. now left. }
  destruct (raised _); [exact Hseed|].
  unfold run_commands_async.
  pose proof (consistent_run_loop (lines_out (scrub_lines e lines []))
    (returncode w) (spawn_error w) (seeded (scrub_lines e lines []))
    (schedule w)) as Hst.
  destruct (gather _) as [[res|err]|] eqn:Hres; simpl.
  - apply (gather_answers _ _ _ _ _ _ Hst) in Hres. subst res.
    apply fold_record_result_settled; [apply answers_not_none|].
    simpl. now rewrite (c_dict _ _ _ _ _ Hst).
  - now rewrite (c_dict _ _ _ _ _ Hst).
  - now rewrite (c_dict _ _ _ _ _ Hst).
Qed.

End MainFacts.

(** ** Claims about the executor *)


(** What [run_commands_async] has done when it returns. *)
Lemma run_commands_async_returns (commands : list string) (rc : nat -> Z)
    (se : nat -> option exn) (schedule : list nat) (d : dict) res st :
  run_commands_async commands rc se schedule d = (Some (Ok res), st) ->
  res = imap (answer rc d) commands /\
  spawned st ≡ₚ List.filter (fun c => negb (dict_mem d c)) commands /\
  results_dict st = d.
Proof.
  unfold run_commands_async. intros [= Hres <-].
  pose proof (consistent_run_loop commands rc se d schedule) as Hst.
  split; [|split].
  - eapply gather_answers; eassumption.
  - eapply gather_spawned; eassumption.
  - eapply c_dict; eassumption.
Qed.

(** The batch of the scenario [["abcd","abcd"]]: both lines are scrubbed to
    the same command, both commands are executed, none is skipped. *)
Example main_twice_abcd :
  main twice_abcd sample_argv =
  {| ended := Exit 0;
     normalized := ["abcd"; "abcd"];
     executed := ["/NAS/mis/esp/scripts/praaabcd.ctl";
                  "/NAS/mis/esp/scripts/praaabcd.ctl"];
     results := [("/NAS/mis/esp/scripts/praaabcd.ctl", "SUCCESS")];
     failure_count := 0;
     skipped_count := 0;
     logfiles := [] |}.
Proof. vm_compute. reflexivity. Qed.

(** The batch of a job code, a comment, a blank line and a CTL file name:
    one success and one failure, nothing for the comment and the blank. *)
Example main_mixed_batch :
  main mixed_batch sample_argv =
  {| ended := Exit 0;
     normalized := ["1234"; "./praa5678.ctl"];
     executed := ["/NAS/mis/esp/scripts/praa1234.ctl";
                  "/NAS/mis/esp/scripts/praa5678.ctl"];
     results := [("/NAS/mis/esp/scripts/praa1234.ctl", "SUCCESS");
                 ("/NAS/mis/esp/scripts/praa5678.ctl", "FAILURE")];
     failure_count := 1;
     skipped_count := 0;
     logfiles := [] |}.
Proof. vm_compute. reflexivity. Qed.




(** C2. Whatever the order in which the event loop resumes the tasks, the
    pairs [run_commands_async] returns are those of the commands in the
    order of [commands]. It does return them under every schedule that
    resumes each task as often as the task needs (once if its command is a
    key of the results map, and else twice, from its start to the [await]
    and from there to its [return]), provided [create_subprocess_shell]
    refuses none of the commands to execute; where it raises instead, that
    is the exception with which one of them was refused. *)
Theorem gather_keeps_input_order (commands : list string) (rc : nat -> Z)
    (se : nat -> option exn) (schedule : list nat) (d : dict) :
  (forall res st,
     run_commands_async commands rc se schedule d = (Some (Ok res), st) ->
     res.*1 = commands /\ res = imap (answer rc d) commands) /\
  ((forall i c, commands !! i = Some c ->
      resumptions_left d c Created <= count_occ Nat.eq_dec schedule i) ->
   all_start commands se d ->
   exists res st,
     run_commands_async commands rc se schedule d = (Some (Ok res), st) /\
     res.*1 = commands /\
     res = imap (answer rc d) commands) /\
  (forall e st,
     run_commands_async commands rc se schedule d = (Some (Raise e), st) ->
     exists i c, commands !! i = Some c /\ dict_mem d c = false /\
       create_subprocess_shell se i c = Some e).
Proof.
  split; [|split].
  - intros res st Hrun.
    apply run_commands_async_returns in Hrun as (-> & _).
    split; [apply answers_fst | reflexivity].
  - intros Hfair Hstart. unfold run_commands_async.
    destruct (fair_schedule_returns commands rc se d schedule Hfair Hstart)
      as [res Hres].
    exists res, (run_loop commands rc se schedule (create_tasks commands d)).
    rewrite Hres. split; [reflexivity|].
    pose proof (gather_answers _ _ _ _ _ _
      (consistent_run_loop commands rc se d schedule) Hres) as ->.
    split; [apply answers_fst | reflexivity].
  - unfold run_commands_async. intros e st [= Hres _].
    eapply gather_raises; [apply consistent_run_loop | exact Hres].
Qed.

Lemma gather_keeps_input_order_witness :
  (forall i c, ["ls"; "1i34"; "ls"] !! i = Some c ->
     resumptions_left [("1i34", "SKIPPED")] c Created <=
     count_occ Nat.eq_dec [2; 1; 0; 0; 2] i) /\
  all_start ["ls"; "1i34"; "ls"] (fun _ => None) [("1i34", "SKIPPED")] /\
  exists res st,
    run_commands_async ["ls"; "1i34"; "ls"] (fun i : nat => Z.of_nat i)
      (fun _ => None) [2; 1; 0; 0; 2] [("1i34", "SKIPPED")] =
      (Some (Ok res), st) /\
    res.*1 = ["ls"; "1i34"; "ls"] /\
    res = imap (answer (fun i : nat => Z.of_nat i) [("1i34", "SKIPPED")])
            ["ls"; "1i34"; "ls"].
Proof.
  assert (Hfair : forall i c, ["ls"; "1i34"; "ls"] !! i = Some c ->
            resumptions_left [("1i34", "SKIPPED")] c Created <=
            count_occ Nat.eq_dec [2; 1; 0; 0; 2] i).
  { intros [|[|[|i]]] c [= <-]; vm_compute; lia. }
  assert (Hstart : all_start ["ls"; "1i34"; "ls"] (fun _ => None)
                     [("1i34", "SKIPPED")]).
  { intros [|[|[|i]]] c [= <-] Hmem; first [reflexivity | discriminate]. }
  split; [exact Hfair|]. split; [exact Hstart|].
  exact (proj1 (proj2 (gather_keeps_input_order ["ls"; "1i34"; "ls"]
           (fun i : nat => Z.of_nat i) (fun _ => None) [2; 1; 0; 0; 2]
           [("1i34", "SKIPPED")])) Hfair Hstart).
Defined.

(** A command that holds a null character is refused: the executor
    raises [ValueError], and the script, which handles no exception of the
    executor, ends with it after the first command was started. *)
Example run_commands_async_null_character :
  (run_commands_async ["true"; "l" +:+ NUL +:+ "s"] (fun _ => 0%Z)
     (fun _ => None) [0; 1; 0; 1] []).1 = Some (Raise ValueError).
Proof. reflexivity. Qed.

Example main_null_character :
  main null_line sample_argv =
  stopped (Unhandled ValueError) ["pwd"; "l" +:+ NUL +:+ "s"] ["pwd"] [].
Proof. vm_compute. reflexivity. Qed.

(** C5. Every pair [run_commands_async] returns has [True], [False] or
    ['SKIPPED'] as its outcome, never [None]; so the branch of the script
    that records [LONGRUN] is never taken, and no entry of the results map
    of a run holds [LONGRUN]. *)
Theorem longrun_is_never_assigned :
  (forall (commands : list string) (rc : nat -> Z)
          (se : nat -> option exn) (schedule : list nat)
          (d : dict) res st (c : string) (o : outcome),
     run_commands_async commands rc se schedule d = (Some (Ok res), st) ->
     (c, o) ∈ res ->
     o = OBool true \/ o = OBool false \/ o = OStr "SKIPPED") /\
  (forall (w : World) (argv : list string) (k : string),
     dict_get (results (main w argv)) k <> Some "LONGRUN").
Proof.
  split.
  - intros commands rc se schedule d res st c o Hrun Hin.
    apply run_commands_async_returns in Hrun as (-> & _).
    apply list_elem_of_lookup in Hin as [i Hi].
    rewrite list_lookup_imap in Hi.
    destruct (commands !! i) as [c'|]; [|discriminate].
    injection Hi as <- <-.
    destruct (dict_mem d c'); [auto|].
    destruct (rc i =? 0)%Z; auto.
  - intros w argv k Hk.
    destruct (main_results_settled w argv k _ Hk) as [H|[H|H]];
      discriminate H.
Qed.

Lemma longrun_is_never_assigned_witness :
  run_commands_async ["ls"; "1i34"; "ls"] (fun i : nat => Z.of_nat i)
    (fun _ => None) [2; 1; 0; 0; 2] [("1i34", "SKIPPED")] =
    (Some (Ok [("ls", OBool false); ("1i34", OStr "SKIPPED");
               ("ls", OBool true)]),
     {| tasks := [Returned ("ls", OBool false);
                  Returned ("1i34", OStr "SKIPPED");
                  Returned ("ls", OBool true)];
        spawned := ["ls"; "ls"];
        results_dict := [("1i34", "SKIPPED")];
        first_error := None |}) /\
  (OBool true = OBool true \/ OBool true = OBool false \/
   OBool true = OStr "SKIPPED").
Proof.
  split; [reflexivity|].
  eapply (proj1 longrun_is_never_assigned ["ls"; "1i34"; "ls"]
            (fun i : nat => Z.of_nat i) (fun _ => None) [2; 1; 0; 0; 2]
            [("1i34", "SKIPPED")] _ _ "ls" (OBool true));
    [reflexivity | repeat constructor].
Defined.

(** C10. At every moment of [run_commands_async], under every
    interleaving of its tasks, the results map is the one the caller passed
    in: the tasks only look commands up in it. And a run of the script that
    does not get past the call holds [SKIPPED] entries only, those seeded
    before it: [SUCCESS], [FAILURE] and [LONGRUN] are written by the loop
    over the gathered results. *)
Theorem executor_only_reads_results_dict :
  (forall (commands : list string) (rc : nat -> Z)
          (se : nat -> option exn) (d : dict) (st : loop),
     rtc (step commands rc se) (create_tasks commands d) st ->
     results_dict st = d) /\
  (forall (w : World) (argv : list string),
     ended (main w argv) <> Exit 0 ->
     all_values (eq "SKIPPED") (results (main w argv))).
Proof.
  split.
  - intros commands rc se d st Hst.
    exact (c_dict _ _ _ _ _ (consistent_reachable _ _ _ _ _ Hst)).
  - intros w argv. unfold main.
    destruct (bad_usage _ _); [intros _; apply all_values_empty|].
    destruct (argv !! 1) as [input_filename|];
      [|intros _; apply all_values_empty].
    destruct (negb _); [intros _; apply all_values_empty|].
    destruct (file_lines w input_filename) as [text|];
      [|intros _; apply all_values_empty].
    set (e := match argv with [_; _; jira] => _ | _ => _ end).
    set (lines := List.filter check_valid_line text).
    pose proof (scrub_lines_seeded e lines [] (all_values_empty _)) as Hseed.
    destruct (raised _); [intros _; exact Hseed|].
    unfold run_commands_async.
    pose proof (consistent_run_loop (lines_out (scrub_lines e lines []))
      (returncode w) (spawn_error w) (seeded (scrub_lines e lines []))
      (schedule w)) as Hst.
    destruct (gather _) as [[res|err]|]; simpl; [congruence| |];
      intros _; now rewrite (c_dict _ _ _ _ _ Hst).
Qed.

Lemma executor_only_reads_results_dict_witness :
  ended (main stalled sample_argv) = Hangs /\
  all_values (eq "SKIPPED") (results (main stalled sample_argv)).
Proof.
  split; [reflexivity|].
  apply (proj2 executor_only_reads_results_dict stalled sample_argv).
  discriminate.
Defined.

(** ** Claims about the normaliser *)

Lemma dot_slash_nonempty : "./" <> "".
Proof. discriminate. Qed.

Lemma scrub_line_located (e : Env) (line : string) :
  scrub_line e line =
  (do srg <- names_srg (located line);
   if srg then
     do found <- get_srg_runjob_command e (located line);
     match found with
     | None => Ok (line, true)
     | Some runjob =>
         if is_empty runjob then Ok (line, true) else Ok (runjob, false)
     end
   else Ok (located line, false)).
Proof. reflexivity. Qed.

Lemma last_item_split (s sep : string) :
  exists p, last_item (split s sep) = Ok p.
Proof.
  unfold last_item. pose proof (split_nonempty s sep) as Hne.
  destruct (last (split s sep)) as [p|] eqn:Hlast; [eauto|].
  apply last_None in Hlast. congruence.
Qed.

(** The lookup itself never raises. *)
Lemma get_srg_runjob_command_returns (e : Env) (job_nm : string) :
  exists found, get_srg_runjob_command e job_nm = Ok found.
Proof.
  unfold get_srg_runjob_command, srg_job_name.
  destruct (last_item_split job_nm "/") as [base ->]. simpl.
  destruct (last_item_split base "praa") as [code ->]. simpl.
  pose proof (split_nonempty code ".ctl") as Hne. unfold item.
  destruct (split code ".ctl") as [|stem rest]; [congruence|]. simpl. eauto.
Qed.

(** [scrub_line] raises nothing but the [IndexError] of its test for an
    SRG. *)
Lemma scrub_line_raises (e : Env) (line : string) (err : exn) :
  scrub_line e line = Raise err ->
  err = IndexError /\ names_srg (located line) = Raise IndexError /\
  contains ".ctl" (located line) = true.
Proof.
  rewrite scrub_line_located. unfold names_srg.
  destruct (contains ".ctl" (located line)) eqn:Hctl; simpl.
  - unfold item, char_at.
    destruct (split (located line) _ !! 1) as [code|]; simpl;
      [|intros [= <-]; auto].
    destruct (String.get 1 code) as [letter|]; simpl;
      [|intros [= <-]; auto].
    destruct (Ascii.eqb letter "i"); [|discriminate].
    destruct (get_srg_runjob_command_returns e (located line))
      as [found ->]. simpl.
    destruct found as [runjob|]; [destruct (is_empty runjob)|];
      discriminate.
  - discriminate.
Qed.

(** A line whose lookup finds no run command is reported as it was given,
    marked for exclusion. *)
Lemma scrub_line_unresolved (e : Env) (line : string) :
  names_srg (located line) = Ok true ->
  get_srg_runjob_command e (located line) = Ok None ->
  scrub_line e line = Ok (line, true).
Proof. intros Hsrg Hnone. now rewrite scrub_line_located, Hsrg; simpl; rewrite Hnone. Qed.

(** C3 fails on the code. A line naming a CTL file outside the scripts
    directory makes [scrub_line] raise [IndexError] in every environment:
    the split at the scripts prefix has a single piece. Nothing handles the
    exception, so the script stops at that line, before any command of the
    batch is executed. *)
Theorem scrub_line_index_error :
  (forall e : Env,
     scrub_line e "/NAS/mis/tmp/praa1234.ctl" = Raise IndexError) /\
  main foreign_ctl sample_argv =
    stopped (Unhandled IndexError) ["ls"; "/NAS/mis/tmp/praa1234.ctl"] [] [].
Proof. split; [intros e; reflexivity | vm_compute; reflexivity]. Qed.

(** The marker is not only removed where it leads the line. *)
Lemma inner_marker_is_removed :
  ~ (forall line : string,
       strip_relative line =
       if startswith line "./" then PyStr.drop 2 line else line).
Proof.
  intros H. specialize (H "/NAS/mis/esp/scripts/./praa1234.ctl").
  vm_compute in H. discriminate H.
Qed.

(** What [replace] does: the line is cut at every occurrence of the marker,
    from left to right; the pieces joined by the marker give the line back,
    no piece holds a marker, and what [scrub_line] keeps is the pieces put
    together without the markers. *)
Lemma strip_relative_removes_every_marker (line : string) :
  join "./" (split line "./") = line /\
  Forall (fun piece => contains "./" piece = false) (split line "./") /\
  strip_relative line = join "" (split line "./").
Proof.
  split; [|split].
  - apply join_split, dot_slash_nonempty.
  - apply split_pieces_clean, dot_slash_nonempty.
  - apply replace_is_split_join, dot_slash_nonempty.
Qed.

(** A leading marker is one of them, and a line without a marker is left
    as it is. *)
Lemma strip_relative_leading (line : string) :
  strip_relative ("./" +:+ line) = strip_relative line.
Proof. unfold strip_relative. now rewrite replace_match. Qed.

Lemma strip_relative_absent (line : string) :
  contains "./" line = false -> strip_relative line = line.
Proof. apply replace_absent. Qed.

(** C6 fails on the code. The comment of option 2 names the spelling
    [./praaxxxx.ctl], a marker at the head of the line, but
    [line.replace] takes the two characters out wherever they stand, also
    out of [../]: the command [cat ../data/x.txt], which does not start
    with the marker, is scrubbed to [cat .data/x.txt] in every environment,
    and that is the command the script then executes. *)
Theorem scrub_line_rewrites_parent_path :
  startswith "cat ../data/x.txt" "./" = false /\
  strip_relative "cat ../data/x.txt" = "cat .data/x.txt" /\
  (forall e : Env,
     scrub_line e "cat ../data/x.txt" = Ok ("cat .data/x.txt", false)) /\
  executed (main parent_path sample_argv) = ["cat .data/x.txt"].
Proof.
  split; [reflexivity|]. split; [reflexivity|].
  split; [intros e; reflexivity | vm_compute; reflexivity].
Qed.


(** Removing the markers once may bring a new one together. *)
Example scrub_line_twice_marker :
  scrub_line quiet_env "..//job.sh" = Ok ("./job.sh", false) /\
  scrub_line quiet_env "./job.sh" = Ok ("job.sh", false).
Proof. split; reflexivity. Qed.



(** So is a command, such as the [runjob srg ...] of a lookup, that is
    neither a bare job code nor a CTL file and holds no marker. *)
Lemma scrub_line_plain_command (e : Env) (x : string) :
  (String.length x =? 4)%nat && isalnum x = false ->
  contains "./" x = false ->
  startswith x "praa" = false ->
  contains ".ctl" x = false ->
  scrub_line e x = Ok (x, false).
Proof.
  intros Hcode Hmarker Hbare Hctl.
  assert (Hloc : located x = x).
  { unfold located, expand_job_code. rewrite Hcode.
    rewrite strip_relative_absent by assumption.
    unfold absolute_ctl_path. now rewrite Hbare. }
  rewrite scrub_line_located, Hloc. unfold names_srg. now rewrite Hctl.
Qed.


(** ** Claims about the log resolver *)


(** The overview of a run then shows the job with an empty log file. *)
Example main_failing_runjob :
  main failing_runjob sample_argv =
  {| ended := Exit 0;
     normalized := ["runjob all_daily 20240603"];
     executed := ["runjob all_daily 20240603"];
     results := [("runjob all_daily 20240603", "FAILURE")];
     failure_count := 1;
     skipped_count := 0;
     logfiles := [("runjob all_daily 20240603", "")] |}.
Proof. vm_compute. reflexivity. Qed.

Lemma get_unix_command_output_empty (e : Env) (unix_cmd : string) :
  popen_stdout e unix_cmd = "" -> get_unix_command_output e unix_cmd = Ok "".
Proof. unfold get_unix_command_output. now intros ->. Qed.




(** On a production machine the log of an SRG is named after the directory
    the listing gives. *)
Example get_runjob_logfile_production_listing :
  get_runjob_logfile production_srg "runjob srg ABC123" =
  "/NAS/mis/srg/'ABC123 Sales'/logs/logfile.txt".
Proof. reflexivity. Qed.

(** ** Claims about the invocation *)

(** C9. Called with an argument count other than one or two after the
    script name, by a production user without the request identifier, or
    with a batch file whose directory does not exist or that cannot be
    opened, the script exits with a status other than 0, and no line has
    been scrubbed nor any command executed. *)
Theorem malformed_invocation_exits_nonzero (w : World) (argv : list string) :
  (length argv <> 2 /\ length argv <> 3) \/
  (current_user_is_production (env w) = true /\ length argv < 3) \/
  (exists input_filename,
     argv !! 1 = Some input_filename /\
     (path_exists (env w) (dirname input_filename) = false \/
      file_lines w input_filename = None)) ->
  exists status,
    exit_status (ended (main w argv)) = Some status /\
    status <> 0%Z /\
    normalized (main w argv) = [] /\
    executed (main w argv) = [].
Proof.
  intros Hbad. exists 1%Z. unfold main.
  destruct (bad_usage (env w) argv) eqn:Husage; [now repeat split|].
  unfold bad_usage, missing_jira_id in Husage.
  apply orb_false_iff in Husage as [Hcount Hjira].
  apply negb_false_iff, orb_true_iff in Hcount.
  rewrite !Nat.eqb_eq in Hcount.
  destruct Hbad as [[H2 H3]|[[Hprod Hlen]|(f & Hf & Hfile)]].
  - lia.
  - rewrite Hprod in Hjira. simpl in Hjira.
    apply Nat.ltb_ge in Hjira. lia.
  - rewrite Hf.
    destruct (path_exists (env w) (dirname f)) eqn:Hdir; simpl;
      [|now repeat split].
    destruct Hfile as [Hfile|Hfile]; [discriminate|].
    rewrite Hfile. now repeat split.
Qed.

Lemma malformed_invocation_exits_nonzero_witness :
  file_lines missing_file "/NAS/mis/tmp/jobs_to_run.txt" = None /\
  exists status,
    exit_status (ended (main missing_file sample_argv)) = Some status /\
    status <> 0%Z /\
    normalized (main missing_file sample_argv) = [] /\
    executed (main missing_file sample_argv) = [].
Proof.
  split; [reflexivity|].
  apply (malformed_invocation_exits_nonzero missing_file sample_argv).
  right. right. exists "/NAS/mis/tmp/jobs_to_run.txt".
  split; [reflexivity | right; reflexivity].
Defined.

(** The three kinds of malformed invocation at work. *)
Example main_without_arguments :
  main twice_abcd ["run_bulk_jobs.py"] = stopped (Exit 1) [] [] [].
Proof. reflexivity. Qed.

Example main_relative_path :
  main {| env := {| current_user_is_production := false;
                    current_machine_is_production_server := false;
                    getenv := fun _ => None;
                    path_exists := fun p => negb (is_empty p);
                    popen_stdout := fun _ => "";
                    utf8_decode := fun bytes => Some bytes;
                    mssql_query := fun _ => Ok [] |};
          file_lines := fun _ => Some ["abcd" +:+ LF];
          returncode := fun _ => 0%Z;
          spawn_error := fun _ => None;
          schedule := [0; 0] |}
       ["run_bulk_jobs.py"; "jobs_to_run.txt"] = stopped (Exit 1) [] [] [].
Proof. reflexivity. Qed.

Example main_missing_file :
  main missing_file sample_argv = stopped (Unhandled OSError) [] [] [].
Proof. reflexivity. Qed.

(** ** Further properties of the code *)

Section CharFacts.

Lemma all_chars_append (p : ascii -> bool) (s t : string) :
  all_chars p (s +:+ t) = all_chars p s && all_chars p t.
Proof.
  induction s as [|c s IH]; [reflexivity|].
  rewrite append_cons. cbn [all_chars]. now rewrite IH, andb_assoc.
Qed.

Lemma all_chars_impl (p q : ascii -> bool) (s : string) :
  (forall c, p c = true -> q c = true) ->
  all_chars p s = true -> all_chars q s = true.
Proof.
  intros Hpq. induction s as [|c s IH]; [reflexivity|].
  cbn [all_chars]. intros [Hc Hs]%andb_true_iff.
  now rewrite (Hpq c Hc), IH.
Qed.

Lemma isalnum_char_not_dot (c : ascii) :
  isalnum_char c = true -> negb (Ascii.eqb "." c) = true.
Proof. destruct c as [[] [] [] [] [] [] [] []]; vm_compute; congruence. Qed.

Lemma isalnum_char_not_slash (c : ascii) :
  isalnum_char c = true -> negb (Ascii.eqb "/" c) = true.
Proof. destruct c as [[] [] [] [] [] [] [] []]; vm_compute; congruence. Qed.

Lemma absent_append (a : ascii) (s t : string) :
  absent a (s +:+ t) = absent a s && absent a t.
Proof. apply all_chars_append. Qed.

Lemma absent_startswith (a : ascii) (p s : string) :
  absent a s = true -> startswith s (String a p) = false.
Proof.
  destruct s as [|c s]; [reflexivity|].
  unfold absent. cbn [all_chars startswith].
  intros [Hc _]%andb_true_iff. now destruct (Ascii.eqb a c).
Qed.

Lemma absent_contains (a : ascii) (p s : string) :
  absent a s = true -> contains (String a p) s = false.
Proof.
  induction s as [|c s IH]; [reflexivity|]. intros Hs.
  cbn [contains]. rewrite (absent_startswith a p _ Hs).
  unfold absent in Hs. cbn [all_chars] in Hs.
  apply andb_true_iff in Hs as [_ Hs]. now apply IH.
Qed.

(** A string in which the separator does not occur is its own single
    piece. *)
Lemma split_absent (s sep : string) :
  sep <> "" -> contains sep s = false -> split s sep = [s].
Proof.
  intros Hne. induction s as [|c r IH].
  - reflexivity.
  - cbn [contains]. intros [Hs Hr]%orb_false_iff.
    rewrite split_miss by assumption. now rewrite IH.
Qed.

(** Up to the first occurrence of the first character of the separator,
    the string goes to the first piece. *)
Lemma split_append_absent (a : ascii) (p u v piece : string)
    (pieces : list string) :
  absent a u = true ->
  split v (String a p) = piece :: pieces ->
  split (u +:+ v) (String a p) = (u +:+ piece) :: pieces.
Proof.
  intros Hu Hv. induction u as [|c u IH]; [exact Hv|].
  unfold absent in Hu. cbn [all_chars] in Hu.
  apply andb_true_iff in Hu as [Hc Hu].
  rewrite append_cons, split_miss, (IH Hu); [reflexivity|].
  cbn [startswith]. now destruct (Ascii.eqb a c).
Qed.

Lemma replace_append_absent (a : ascii) (p new u v : string) :
  absent a u = true ->
  replace (u +:+ v) (String a p) new = u +:+ replace v (String a p) new.
Proof.
  induction u as [|c u IH]; intros Hu; [reflexivity|].
  unfold absent in Hu. cbn [all_chars] in Hu.
  apply andb_true_iff in Hu as [Hc Hu].
  rewrite !append_cons, replace_miss; [now rewrite (IH Hu)|].
  cbn [startswith]. now destruct (Ascii.eqb a c).
Qed.

(** Behind a separator of one character, the pieces are those of what
    follows, after those of what precedes. *)
Lemma split_char_append (a : ascii) (u v : string) :
  exists pre, pre <> [] /\
    split (u +:+ String a v) (String a "") = pre ++ split v (String a "").
Proof.
  assert (Hne : String a "" <> "") by discriminate.
  induction u as [|c u (pre & Hpre & IH)].
  - exists [""]. split; [discriminate|]. rewrite append_nil_l.
    exact (split_match (String a "") v Hne).
  - rewrite append_cons. destruct (Ascii.eqb a c) eqn:Hc.
    + apply Ascii.eqb_eq in Hc as <-.
      exists ("" :: pre). split; [discriminate|].
      change (String a (u +:+ String a v))
        with (String a "" +:+ (u +:+ String a v)).
      now rewrite split_match, IH.
    + rewrite split_miss by (cbn [startswith]; now rewrite Hc).
      rewrite IH. destruct pre as [|p0 pre]; [congruence|].
      exists (String c p0 :: pre). split; [discriminate | reflexivity].
Qed.

Lemma last_item_app {A : Type} (pre l : list A) :
  l <> [] -> last_item (pre ++ l) = last_item l.
Proof.
  intros Hl. unfold last_item.
  destruct l as [|x l _] using rev_ind; [congruence|].
  now rewrite app_assoc, !last_snoc.
Qed.

End CharFacts.

Section JobCodes.

Lemma drop_length (s p : string) :
  PyStr.drop (String.length s) (s +:+ p) = p.
Proof.
  unfold PyStr.drop. rewrite length_append.
  replace (String.length s + String.length p - String.length s)
    with (String.length p) by lia.
  induction s as [|c s IH]; [|exact IH].
  rewrite append_nil_l. cbn [String.length].
  induction p as [|c p IHp]; [reflexivity|].
  cbn [String.length substring]. now rewrite IHp.
Qed.

Lemma endswith_append (s p : string) : endswith (s +:+ p) p = true.
Proof.
  unfold endswith. rewrite length_append.
  replace (String.length s + String.length p - String.length p)
    with (String.length s) by lia.
  rewrite drop_length, String.eqb_refl, andb_true_r.
  apply Nat.leb_le. lia.
Qed.

Lemma drop_all_chars (p : ascii -> bool) (n : nat) (s : string) :
  all_chars p s = true -> all_chars p (PyStr.drop n s) = true.
Proof.
  unfold PyStr.drop. revert n. induction s as [|c s IH]; intros n Hs.
  - now destruct n.
  - cbn [all_chars] in Hs. apply andb_true_iff in Hs as [Hc Hs].
    destruct n as [|n]; cbn [String.length]. 
    + rewrite Nat.sub_0_r. clear IH.
      assert (H : forall m t, all_chars p t = true ->
                all_chars p (substring 0 m t) = true).
      { intros m. induction m as [|m IHm]; intros [|d t] Ht;
          try reflexivity.
        cbn [all_chars] in Ht. apply andb_true_iff in Ht as [Hd Ht].
        cbn [substring all_chars]. now rewrite Hd, IHm. }
      apply H. cbn [all_chars]. now rewrite Hc, Hs.
    + cbn [substring]. now apply IH.
Qed.

(** A string that ends with [.ctl] holds a dot. *)
Lemma endswith_ctl_dot (s : string) :
  absent "." s = true -> endswith s ".ctl" = false.
Proof.
  intros Hs. unfold endswith.
  destruct (String.length ".ctl" <=? String.length s)%nat; [|reflexivity].
  cbn [andb]. apply String.eqb_neq. intros Heq.
  pose proof (drop_all_chars _ (String.length s - String.length ".ctl") s Hs)
    as Hdrop.
  rewrite Heq in Hdrop. discriminate Hdrop.
Qed.

Lemma job_code_length (j : string) :
  is_job_code j = true -> String.length j = 4.
Proof. intros [H _]%andb_true_iff. now apply Nat.eqb_eq. Qed.

Lemma job_code_all_alnum (j : string) :
  is_job_code j = true -> all_chars isalnum_char j = true.
Proof. intros [_ H]%andb_true_iff. now destruct j. Qed.

Lemma job_code_no_dot (j : string) :
  is_job_code j = true -> absent "." j = true.
Proof.
  intros Hj. eapply all_chars_impl;
    [apply isalnum_char_not_dot | now apply job_code_all_alnum].
Qed.

Lemma job_code_no_slash (j : string) :
  is_job_code j = true -> absent "/" j = true.
Proof.
  intros Hj. eapply all_chars_impl;
    [apply isalnum_char_not_slash | now apply job_code_all_alnum].
Qed.

Lemma not_job_code_longer (u j : string) :
  u <> "" -> is_job_code j = true ->
  expand_job_code (u +:+ j) = u +:+ j.
Proof.
  intros Hu Hj. unfold expand_job_code.
  rewrite length_append, (job_code_length j Hj).
  destruct u as [|c u]; [congruence|]. cbn [String.length].
  replace (S (String.length u) + 4 =? 4)%nat with false; [reflexivity|].
  symmetry. apply Nat.eqb_neq. lia.
Qed.

Lemma strip_relative_bare_ctl (j : string) :
  is_job_code j = true ->
  strip_relative ("praa" +:+ j +:+ ".ctl") = "praa" +:+ j +:+ ".ctl".
Proof.
  intros Hj. unfold strip_relative.
  rewrite <- append_assoc, replace_append_absent; [reflexivity|].
  now rewrite absent_append, (job_code_no_dot j Hj).
Qed.

Lemma absolute_bare_ctl (j : string) :
  absolute_ctl_path ("praa" +:+ j +:+ ".ctl") = ctl_path j.
Proof.
  unfold absolute_ctl_path, ctl_path.
  rewrite startswith_append, <- (append_assoc "praa" j ".ctl").
  rewrite endswith_append, append_nil_r. now rewrite append_assoc.
Qed.

(** The inputs the script takes for one job: its code, its CTL file with
    or without extension or relative marker, and the full path of the CTL
    file. After options 1 and 2 they are the same. *)
Lemma located_acceptable (j : string) :
  is_job_code j = true ->
  Forall (fun line => located line = ctl_path j)
    [j; "praa" +:+ j; "praa" +:+ j +:+ ".ctl";
     "./praa" +:+ j +:+ ".ctl"; ctl_path j].
Proof.
  intros Hj.
  assert (Hbare : located ("praa" +:+ j +:+ ".ctl") = ctl_path j).
  { unfold located.
    unfold expand_job_code.
    rewrite !length_append, (job_code_length j Hj). cbn [String.length Nat.add Nat.eqb andb].
    rewrite strip_relative_bare_ctl by assumption. apply absolute_bare_ctl. }
  repeat constructor.
  - unfold located, expand_job_code. fold (is_job_code j). rewrite Hj.
    rewrite strip_relative_bare_ctl by assumption. apply absolute_bare_ctl.
  - unfold located. rewrite not_job_code_longer by (assumption || discriminate).
    unfold strip_relative. rewrite replace_absent.
    + unfold absolute_ctl_path. rewrite startswith_append.
      rewrite endswith_ctl_dot.
      * unfold ctl_path. now rewrite append_assoc.
      * now rewrite absent_append, (job_code_no_dot j Hj).
    + apply absent_contains.
      now rewrite absent_append, (job_code_no_dot j Hj).
  - exact Hbare.
  - unfold located, expand_job_code.
    rewrite !length_append, (job_code_length j Hj).
    cbn [String.length Nat.add Nat.eqb andb].
    unfold strip_relative.
    change ("./praa" +:+ j +:+ ".ctl") with ("./" +:+ "praa" +:+ j +:+ ".ctl").
    rewrite replace_match by discriminate. rewrite append_nil_l.
    fold (strip_relative ("praa" +:+ j +:+ ".ctl")).
    rewrite strip_relative_bare_ctl by assumption. apply absolute_bare_ctl.
  - unfold located, expand_job_code, ctl_path.
    rewrite !length_append, (job_code_length j Hj).
    cbn [String.length SCRIPTS_DIR Nat.add Nat.eqb andb].
    unfold strip_relative.
    rewrite <- !append_assoc, replace_append_absent.
    + reflexivity.
    + now rewrite !absent_append, (job_code_no_dot j Hj).
Qed.

End JobCodes.

Section SrgFacts.

Lemma job_code_second (j : string) :
  is_job_code j = true ->
  exists c, String.get 1 j = Some c /\
    forall t, String.get 1 (j +:+ t) = Some c.
Proof.
  intros Hj. pose proof (job_code_length j Hj) as Hlen.
  destruct j as [|c1 [|c2 j]]; try discriminate.
  exists c2. split; [reflexivity | intros t; reflexivity].
Qed.

(** On the CTL file of a job code, the test for an SRG looks at the second
    character of the code. *)
Lemma names_srg_ctl_path (j : string) (c : ascii) :
  is_job_code j = true -> String.get 1 j = Some c ->
  names_srg (ctl_path j) = Ok (Ascii.eqb c "i").
Proof.
  intros Hj Hc. unfold names_srg.
  assert (Hctl : contains ".ctl" (ctl_path j) = true).
  { apply contains_iff. exists (SCRIPTS_DIR +:+ "praa" +:+ j), "".
    unfold ctl_path. now rewrite append_nil_r, !append_assoc. }
  rewrite Hctl. unfold ctl_path.
  rewrite <- (append_assoc SCRIPTS_DIR "praa" (j +:+ ".ctl")).
  rewrite split_match by discriminate.
  rewrite split_absent; [|discriminate|].
  - cbn [item lookup list_lookup bind]. unfold char_at.
    destruct (job_code_second j Hj) as (c' & Hc' & Happ).
    rewrite Happ. cbn [bind]. congruence.
  - apply absent_contains.
    now rewrite absent_append, (job_code_no_slash j Hj).
Qed.

Lemma srg_code_no_praa (j : string) :
  is_job_code j = true -> String.get 1 j = Some "i"%char ->
  contains "praa" (j +:+ ".ctl") = false.
Proof.
  intros Hj Hi. pose proof (job_code_length j Hj) as Hlen.
  destruct j as [|c1 [|c2 [|c3 [|c4 [|c5 j]]]]]; try discriminate.
  injection Hi as ->. rewrite !append_cons, append_nil_l.
  cbn [contains startswith orb].
  change (Ascii.eqb "r" "i") with false.
  change (Ascii.eqb "a" ".") with false.
  change (Ascii.eqb "p" "i") with false.
  change (Ascii.eqb "r" ".") with false.
  change (Ascii.eqb "p" ".") with false.
  change (Ascii.eqb "p" "c") with false.
  change (Ascii.eqb "p" "t") with false.
  change (Ascii.eqb "p" "l") with false.
  destruct (Ascii.eqb "p" c1), (Ascii.eqb "p" c3), (Ascii.eqb "r" c4),
    (Ascii.eqb "p" c4); reflexivity.
Qed.

(** The job name looked up for the CTL file of an SRG code. *)
Lemma srg_job_name_ctl_path (j : string) :
  is_job_code j = true -> String.get 1 j = Some "i"%char ->
  srg_job_name (ctl_path j) = Ok ("mis_" +:+ j +:+ "_00_c").
Proof.
  intros Hj Hi. unfold srg_job_name, ctl_path.
  assert (Hfile : last_item (split (SCRIPTS_DIR +:+ "praa" +:+ j +:+ ".ctl")
                    "/") = Ok ("praa" +:+ j +:+ ".ctl")).
  { change (SCRIPTS_DIR +:+ "praa" +:+ j +:+ ".ctl")
      with ("/NAS/mis/esp/scripts" +:+
            String "/" ("praa" +:+ j +:+ ".ctl")).
    destruct (split_char_append "/" "/NAS/mis/esp/scripts"
                ("praa" +:+ j +:+ ".ctl")) as (pre & _ & ->).
    rewrite last_item_app by apply split_nonempty.
    rewrite split_absent; [reflexivity | discriminate |].
    apply absent_contains.
    now rewrite !absent_append, (job_code_no_slash j Hj). }
  rewrite Hfile. cbn [bind].
  rewrite split_match by discriminate.
  rewrite (split_absent (j +:+ ".ctl") "praa")
    by (discriminate || now apply srg_code_no_praa).
  cbn [last_item last bind].
  rewrite (split_append_absent "." "ctl" j ".ctl" "" [""]);
    [|now apply job_code_no_dot | reflexivity].
  cbn [item lookup list_lookup bind]. now rewrite append_nil_r.
Qed.

(** [get_srg_runjob_command] accepts the answer of the database only when
    it is a single row. *)
Lemma get_srg_runjob_command_rows (e : Env) (job_nm name : string) :
  srg_job_name job_nm = Ok name ->
  get_srg_runjob_command e job_nm =
  Ok match mssql_query e (srg_query name) with
     | Ok [row] => row
     | _ => None
     end.
Proof.
  intros Hname. unfold get_srg_runjob_command, srg_lookup, srg_query.
  rewrite Hname. cbn [bind].
  destruct (mssql_query e _) as [[|row [|row' data]]|err]; reflexivity.
Qed.

End SrgFacts.

(** X1. For a job code whose second character is not [i], [scrub_line] gives
    the path of its CTL file for each of the inputs the script accepts. *)
Theorem scrub_line_acceptable_inputs (e : Env) (j : string) :
  is_job_code j = true -> String.get 1 j <> Some "i"%char ->
  Forall (fun line => scrub_line e line = Ok (ctl_path j, false))
    [j; "praa" +:+ j; "praa" +:+ j +:+ ".ctl";
     "./praa" +:+ j +:+ ".ctl"; ctl_path j].
Proof.
  intros Hj Hi. eapply Forall_impl; [apply located_acceptable, Hj|].
  intros line Hline. cbn beta in Hline.
  rewrite scrub_line_located, Hline.
  destruct (job_code_second j Hj) as (c & Hc & _).
  rewrite (names_srg_ctl_path j c Hj Hc). cbn [bind].
  destruct (Ascii.eqb_spec c "i") as [->|Hne]; [congruence | reflexivity].
Qed.

(** X2. For an SRG code, each of these inputs is resolved by the lookup of
    [mis_<code>_00_c]: a single row with a run command gives that command,
    anything else leaves the line as given, marked for exclusion. *)
Theorem scrub_line_srg_code (e : Env) (j : string) :
  is_job_code j = true -> String.get 1 j = Some "i"%char ->
  Forall (fun line =>
    scrub_line e line =
    Ok match mssql_query e (srg_query ("mis_" +:+ j +:+ "_00_c")) with
       | Ok [Some runjob] =>
           if is_empty runjob then (line, true) else (runjob, false)
       | _ => (line, true)
       end)
    [j; "praa" +:+ j; "praa" +:+ j +:+ ".ctl";
     "./praa" +:+ j +:+ ".ctl"; ctl_path j].
Proof.
  intros Hj Hi. eapply Forall_impl; [apply located_acceptable, Hj|].
  intros line Hline. cbn beta in Hline.
  rewrite scrub_line_located, Hline.
  rewrite (names_srg_ctl_path j "i" Hj Hi). cbn [bind Ascii.eqb].
  change (Ascii.eqb "i" "i") with true. cbv iota.
  rewrite (get_srg_runjob_command_rows e _ _ (srg_job_name_ctl_path j Hj Hi)).
  cbn [bind].
  destruct (mssql_query e _) as [[|[runjob|] [|row' data]]|err];
    try reflexivity.
  now destruct (is_empty runjob).
Qed.

Section MoreExecutorFacts.

Lemma launched_elem (d : dict) (cs : list string) (ts : list task) c :
  c ∈ launched d cs ts -> dict_mem d c = false /\ c ∈ cs.
Proof.
  revert ts. induction cs as [|c0 cs IH]; intros [|t ts] Hc;
    simpl in Hc; try (now apply elem_of_nil in Hc).
  apply elem_of_app in Hc as [Hc|Hc].
  - destruct t; try (now apply elem_of_nil in Hc);
      (destruct (dict_mem d c0) eqn:Hmem; [now apply elem_of_nil in Hc|];
       apply list_elem_of_singleton in Hc as ->; split; [assumption|left]).
  - destruct (IH ts Hc). split; [assumption | now right].
Qed.

End MoreExecutorFacts.

(** X3. At no moment of [run_commands_async], under no interleaving, has a
    child process been started for a command that is a key of the results
    map; what has been started are commands of the batch. *)
Theorem spawned_are_unseeded (commands : list string) (rc : nat -> Z)
    (se : nat -> option exn) (d : dict) (st : loop) (c : string) :
  rtc (step commands rc se) (create_tasks commands d) st ->
  c ∈ spawned st ->
  dict_mem d c = false /\ c ∈ commands.
Proof.
  intros Hst Hc. apply consistent_reachable in Hst.
  rewrite (c_spawned _ _ _ _ _ Hst) in Hc. eapply launched_elem; eauto.
Qed.

Lemma spawned_are_unseeded_witness :
  spawned midway = ["pwd"; "ls"] /\
  dict_mem [("1i34", "SKIPPED")] "ls" = false /\
  "ls" ∈ ["ls"; "1i34"; "pwd"].
Proof.
  split; [reflexivity|].
  apply (spawned_are_unseeded ["ls"; "1i34"; "pwd"] (fun _ => 0%Z)
           (fun _ => None) [("1i34", "SKIPPED")] midway "ls").
  - apply run_loop_reachable.
  - right. left.
Defined.

Section MoreMainFacts.

Lemma scrub_lines_attempted (e : Env) (lines : list string) (d : dict) :
  raised (scrub_lines e lines d) = None ->
  attempted (scrub_lines e lines d) = map strip lines /\
  length (lines_out (scrub_lines e lines d)) = length lines.
Proof.
  revert d. induction lines as [|line lines IH]; intros d; simpl;
    [now split|].
  destruct (scrub_line e (strip line)) as [[cmd skip]|err]; simpl;
    [|discriminate].
  intros Hr. destruct (IH _ Hr) as [-> ->]. now split.
Qed.

Lemma scrub_lines_attempted_sub (e : Env) (lines : list string) (d : dict) l :
  l ∈ attempted (scrub_lines e lines d) -> l ∈ map strip lines.
Proof.
  revert d. induction lines as [|line lines IH]; intros d; simpl;
    [easy|].
  destruct (scrub_line e (strip line)) as [[cmd skip]|err]; simpl.
  - intros [->|Hl]%elem_of_cons; [left | right; eauto].
  - intros ->%list_elem_of_singleton. left.
Qed.

(** What a run that reaches its end has gone through. *)
Lemma main_completed (w : World) (argv : list string) :
  ended (main w argv) = Exit 0 ->
  exists e lines,
    let s := scrub_lines e lines [] in
    let rs := imap (answer (returncode w) (seeded s)) (lines_out s) in
    let t := fold_left record_result rs
               {| t_results := seeded s; t_failures := 0; t_skipped := 0 |} in
    raised s = None /\
    normalized (main w argv) = attempted s /\
    executed (main w argv) ≡ₚ
      List.filter (fun c => negb (dict_mem (seeded s) c)) (lines_out s) /\
    results (main w argv) = t_results t /\
    failure_count (main w argv) = t_failures t /\
    skipped_count (main w argv) = t_skipped t /\
    logfiles (main w argv) =
      (if (0 <? t_failures t)%nat then overview e (t_results t) else []) /\
    forall k, get_runjob_logfile e k = get_runjob_logfile (env w) k.
Proof.
  unfold main.
  destruct (bad_usage _ _); [discriminate|].
  destruct (argv !! 1) as [input_filename|]; [|discriminate].
  destruct (negb _); [discriminate|].
  destruct (file_lines w input_filename) as [text|]; [|discriminate].
  set (e := match argv with [_; _; jira] => _ | _ => _ end).
  set (lines := List.filter check_valid_line text).
  destruct (raised (scrub_lines e lines [])) eqn:Hraised; [discriminate|].
  destruct (run_commands_async _ _ _ _ _) as [[[res|err]|] st] eqn:Hrun;
    [|discriminate..].
  intros _. exists e, lines. cbv zeta.
  apply run_commands_async_returns in Hrun as (-> & Hsp & ->).
  repeat split; try reflexivity; try assumption.
  intros k. subst e. destruct argv as [|a0 [|a1 [|a2 [|a3 argv]]]];
    reflexivity.
Qed.

End MoreMainFacts.

Section Tally.

Variable d : dict.

Lemma answer_shift (rc : nat -> Z) (cs : list string) (c : string) :
  imap (answer rc d) (c :: cs) =
  answer rc d 0 c :: imap (answer (fun i => rc (S i)) d) cs.
Proof. reflexivity. Qed.

(** The counters after the loop over the answers of a batch. *)
Lemma fold_record_result_counts (cs : list string) : forall rc t,
  let t' := fold_left record_result (imap (answer rc d) cs) t in
  t_skipped t' = t_skipped t + length (List.filter (dict_mem d) cs) /\
  t_failures t' <=
    t_failures t + length (List.filter (fun c => negb (dict_mem d c)) cs) /\
  t_failures t <= t_failures t'.
Proof.
  induction cs as [|c cs IH]; intros rc t; cbv zeta.
  - simpl. lia.
  - rewrite answer_shift. cbn [fold_left List.filter].
    specialize (IH (fun i => rc (S i)) (record_result t (answer rc d 0 c))).
    cbv zeta in IH. destruct IH as (Hs & Hf & Hmono).
    rewrite Hs. unfold answer in *.
    destruct (dict_mem d c); cbn [negb length] in *.
    + change (record_result t (c, OStr "SKIPPED"))
        with {| t_results := t_results t; t_failures := t_failures t;
                t_skipped := t_skipped t + 1 |} in *.
      cbn [t_skipped t_failures] in *. lia.
    + destruct (rc 0%nat =? 0)%Z;
        cbn [record_result truthy t_skipped t_failures] in *; lia.
Qed.

Lemma record_result_ran (t : tally) (r : string * outcome) (c : string) :
  r.2 <> ONone ->
  (exists v, dict_get (t_results t) c = Some v /\ ran v) ->
  exists v, dict_get (t_results (record_result t r)) c = Some v /\ ran v.
Proof.
  destruct r as [c' o]. simpl. intros Ho Hc. unfold record_result.
  assert (Hset : forall v', ran v' ->
    exists v, dict_get (dict_set (t_results t) c' v') c = Some v /\ ran v).
  { intros v' Hv'. rewrite dict_get_set.
    destruct (String.eqb c c'); eauto. }
  destruct o as [[]|s|]; simpl; try congruence.
  - apply Hset. now left.
  - apply Hset. now right.
  - destruct (String.eqb s "SKIPPED"); [assumption|].
    destruct (is_empty s); simpl; apply Hset; [now right | now left].
Qed.

Lemma fold_record_result_ran (rs : list (string * outcome)) (c : string) :
  forall t,
  Forall (fun r => r.2 <> ONone) rs ->
  (exists v, dict_get (t_results t) c = Some v /\ ran v) ->
  exists v,
    dict_get (t_results (fold_left record_result rs t)) c = Some v /\ ran v.
Proof.
  induction rs as [|r rs IH]; intros t Hrs Ht; simpl; [assumption|].
  apply Forall_cons in Hrs as [Hr Hrs].
  apply IH; [assumption|]. now apply record_result_ran.
Qed.

Lemma fold_record_result_ran_elem (rs : list (string * outcome))
    (c : string) (failed : bool) : forall t,
  Forall (fun r => r.2 <> ONone) rs -> (c, OBool failed) ∈ rs ->
  exists v,
    dict_get (t_results (fold_left record_result rs t)) c = Some v /\ ran v.
Proof.
  induction rs as [|r rs IH]; intros t Hrs Hc; [now apply elem_of_nil in Hc|].
  apply Forall_cons in Hrs as [Hr Hrs]. simpl.
  apply elem_of_cons in Hc as [<-|Hc]; [|now apply IH].
  apply fold_record_result_ran; [assumption|].
  unfold record_result. destruct failed; simpl; rewrite dict_get_set;
    rewrite String.eqb_refl; eexists; (split; [reflexivity|]);
    [now left | now right].
Qed.

End Tally.

Lemma filter_split_length {A : Type} (p : A -> bool) (l : list A) :
  length (List.filter p l) + length (List.filter (fun x => negb (p x)) l) =
  length l.
Proof.
  induction l as [|x l IH]; [reflexivity|].
  simpl. destruct (p x); simpl; lia.
Qed.

(** X4. A run that reaches its end has accounted for every line of the
    batch: each was either executed or counted as skipped, and no more
    failures are counted than commands were executed. *)
Theorem main_accounts_for_every_line (w : World) (argv : list string) :
  ended (main w argv) = Exit 0 ->
  skipped_count (main w argv) + length (executed (main w argv)) =
    length (normalized (main w argv)) /\
  failure_count (main w argv) <= length (executed (main w argv)).
Proof.
  intros Hend.
  destruct (main_completed w argv Hend)
    as (e & lines & Hraised & -> & Hexec & _ & -> & -> & _).
  destruct (scrub_lines_attempted e lines [] Hraised) as [-> Hlen].
  rewrite Hexec, length_map, <- Hlen.
  destruct (fold_record_result_counts (seeded (scrub_lines e lines []))
              (lines_out (scrub_lines e lines [])) (returncode w)
              {| t_results := seeded (scrub_lines e lines []);
                 t_failures := 0; t_skipped := 0 |}) as (-> & Hf & _).
  cbn [t_skipped t_failures] in *.
  pose proof (filter_split_length (dict_mem (seeded (scrub_lines e lines [])))
                (lines_out (scrub_lines e lines []))).
  lia.
Qed.

Lemma main_accounts_for_every_line_witness :
  ended (main mixed_batch sample_argv) = Exit 0 /\
  skipped_count (main mixed_batch sample_argv) +
    length (executed (main mixed_batch sample_argv)) =
    length (normalized (main mixed_batch sample_argv)) /\
  failure_count (main mixed_batch sample_argv) <=
    length (executed (main mixed_batch sample_argv)).
Proof.
  split; [reflexivity|].
  apply (main_accounts_for_every_line mixed_batch sample_argv).
  reflexivity.
Defined.

(** X5. In a run that reaches its end, every command that was executed is
    a key of the results map, with [FAILURE] or [SUCCESS] as its status. *)
Theorem executed_commands_have_status (w : World) (argv : list string)
    (c : string) :
  ended (main w argv) = Exit 0 ->
  c ∈ executed (main w argv) ->
  dict_get (results (main w argv)) c = Some "FAILURE" \/
  dict_get (results (main w argv)) c = Some "SUCCESS".
Proof.
  intros Hend Hc.
  destruct (main_completed w argv Hend)
    as (e & lines & Hraised & _ & Hexec & -> & _).
  rewrite Hexec in Hc. apply list_elem_of_In, filter_In in Hc as [Hc Hmem].
  apply list_elem_of_In, list_elem_of_lookup in Hc as [i Hi].
  apply negb_true_iff in Hmem.
  destruct (fold_record_result_ran_elem
    (imap (answer (returncode w) (seeded (scrub_lines e lines [])))
          (lines_out (scrub_lines e lines []))) c
    (if (returncode w i =? 0)%Z then false else true)
    {| t_results := seeded (scrub_lines e lines []);
       t_failures := 0; t_skipped := 0 |}) as (v & Hv & [->| ->]); auto.
  - apply answers_not_none.
  - apply list_elem_of_lookup. exists i.
    rewrite list_lookup_imap, Hi. unfold answer. simpl. now rewrite Hmem.
Qed.

Lemma executed_commands_have_status_witness :
  ended (main mixed_batch sample_argv) = Exit 0 /\
  "/NAS/mis/esp/scripts/praa5678.ctl" ∈ executed (main mixed_batch sample_argv) /\
  (dict_get (results (main mixed_batch sample_argv))
     "/NAS/mis/esp/scripts/praa5678.ctl" = Some "FAILURE" \/
   dict_get (results (main mixed_batch sample_argv))
     "/NAS/mis/esp/scripts/praa5678.ctl" = Some "SUCCESS").
Proof.
  assert (Hin : "/NAS/mis/esp/scripts/praa5678.ctl"
                ∈ executed (main mixed_batch sample_argv))
    by (right; left).
  split; [reflexivity|]. split; [exact Hin|].
  exact (executed_commands_have_status mixed_batch sample_argv _
           eq_refl Hin).
Defined.

Section Entries.

Lemma dict_set_entries (P : string -> Prop) (d : dict) (k v : string) :
  Forall (fun kv => P kv.2) d -> P v ->
  Forall (fun kv => P kv.2) (dict_set d k v).
Proof.
  intros Hd Hv. induction d as [|[k0 v0] d IH]; simpl.
  - now constructor.
  - apply Forall_cons in Hd as [H0 Hd].
    destruct (String.eqb k k0); constructor; auto.
Qed.

Lemma scrub_lines_entries (e : Env) (lines : list string) : forall d,
  Forall (fun kv => kv.2 = "SKIPPED") d ->
  Forall (fun kv => kv.2 = "SKIPPED") (seeded (scrub_lines e lines d)).
Proof.
  induction lines as [|line lines IH]; intros d Hd; simpl; [assumption|].
  destruct (scrub_line e (strip line)) as [[cmd skip]|err]; simpl;
    [|assumption].
  apply IH. destruct skip; [|assumption].
  now apply (dict_set_entries (fun v => v = "SKIPPED")).
Qed.

Lemma fold_record_result_entries (rs : list (string * outcome)) : forall t,
  Forall (fun r => r.2 <> ONone) rs ->
  Forall (fun kv => settled kv.2) (t_results t) ->
  Forall (fun kv => settled kv.2)
    (t_results (fold_left record_result rs t)).
Proof.
  induction rs as [|[c o] rs IH]; intros t Hrs Ht; simpl; [assumption|].
  apply Forall_cons in Hrs as [Ho Hrs]. apply IH; [assumption|].
  unfold record_result, settled in *. simpl in Ho.
  destruct o as [[]|s|]; simpl; try congruence;
    try (apply (dict_set_entries settled); unfold settled; auto).
  destruct (String.eqb s "SKIPPED"); [assumption|].
  destruct (is_empty s); simpl;
    apply (dict_set_entries settled); unfold settled; auto.
Qed.

End Entries.

(** X6. The overview resolves a log file only for a command that is
    trackable and whose status is [FAILURE], and what it shows is
    [get_runjob_logfile] of that command: a failing command that is not
    trackable is listed without a log file. *)
Theorem logfiles_only_for_failed_trackable (w : World) (argv : list string)
    (k p : string) :
  (k, p) ∈ logfiles (main w argv) ->
  has_logfile k = true /\
  (k, "FAILURE") ∈ results (main w argv) /\
  p = get_runjob_logfile (env w) k.
Proof.
  intros Hkp.
  assert (Hend : ended (main w argv) = Exit 0).
  { revert Hkp. unfold main.
    repeat match goal with
    | |- context [match ?x with _ => _ end] =>
        destruct x; try (intros H; now apply elem_of_nil in H)
    end; reflexivity. }
  destruct (main_completed w argv Hend)
    as (e & lines & _ & _ & _ & Hres & _ & _ & Hlog & Henv).
  rewrite Hlog in Hkp. rewrite Hres. clear Hlog Hres.
  destruct (0 <? _)%nat; [|now apply elem_of_nil in Hkp].
  unfold overview in Hkp.
  apply list_elem_of_In, in_flat_map in Hkp as ([k' v] & Hin & Hkp).
  destruct ((String.eqb v "LONGRUN" || String.eqb v "FAILURE")
            && has_logfile k') eqn:Hcond; [|destruct Hkp].
  destruct Hkp as [[= <- <-]|[]].
  apply andb_true_iff in Hcond as [Hv Hk]. split; [exact Hk|].
  split; [|apply Henv].
  apply orb_true_iff in Hv as [Hv|Hv]; apply String.eqb_eq in Hv; subst v.
  - exfalso.
    pose proof (fold_record_result_entries
      (imap (answer (returncode w) (seeded (scrub_lines e lines [])))
            (lines_out (scrub_lines e lines [])))
      {| t_results := seeded (scrub_lines e lines []);
         t_failures := 0; t_skipped := 0 |}
      (answers_not_none _ _ _)) as Hall.
    cbn [t_results] in Hall.
    assert (Hseed : Forall (fun kv : string * string => settled kv.2)
                      (seeded (scrub_lines e lines []))).
    { eapply Forall_impl; [apply scrub_lines_entries; constructor|].
      intros kv Hkv. now left. }
    specialize (Hall Hseed). rewrite Forall_forall in Hall.
    destruct (Hall _ (proj2 (list_elem_of_In _ _) Hin)) as [H|[H|H]];
      discriminate H.
  - now apply list_elem_of_In.
Qed.

Lemma logfiles_only_for_failed_trackable_witness :
  ("runjob all_daily 20240603", "") ∈ logfiles (main failing_runjob sample_argv) /\
  has_logfile "runjob all_daily 20240603" = true /\
  ("runjob all_daily 20240603", "FAILURE")
    ∈ results (main failing_runjob sample_argv) /\
  "" = get_runjob_logfile (env failing_runjob) "runjob all_daily 20240603".
Proof.
  assert (Hin : ("runjob all_daily 20240603", "")
                ∈ logfiles (main failing_runjob sample_argv)) by left.
  split; [exact Hin|].
  exact (logfiles_only_for_failed_trackable failing_runjob sample_argv
           _ _ Hin).
Defined.

Section Invocation.

Lemma upto_last_slash_none (p : string) :
  contains "/" p = false -> upto_last_slash p = "".
Proof. destruct p as [|c p]; [reflexivity|]. simpl. now intros ->. Qed.

Lemma dirname_bare (p : string) : contains "/" p = false -> dirname p = "".
Proof. intros Hp. unfold dirname. now rewrite upto_last_slash_none. Qed.

End Invocation.

(** X7. A batch file named without a directory is refused, whether or not
    the file exists: the script tests the directory part of the name, which
    is then the empty path. *)
Theorem main_refuses_bare_filename (w : World) (argv : list string)
    (input_filename : string) :
  argv !! 1 = Some input_filename ->
  contains "/" input_filename = false ->
  path_exists (env w) "" = false ->
  main w argv = stopped (Exit 1) [] [] [].
Proof.
  intros Harg Hbare Hexists. unfold main.
  destruct (bad_usage (env w) argv); [reflexivity|].
  now rewrite Harg, (dirname_bare _ Hbare), Hexists.
Qed.

(** X8. What reaches [scrub_line] is never the empty string: blank lines
    are dropped, and the other lines are stripped. *)
Theorem normalized_lines_not_empty (w : World) (argv : list string)
    (line : string) :
  line ∈ normalized (main w argv) -> line <> "".
Proof.
  unfold main.
  destruct (bad_usage _ _); [intros H; now apply elem_of_nil in H|].
  destruct (argv !! 1) as [input_filename|];
    [|intros H; now apply elem_of_nil in H].
  destruct (negb _); [intros H; now apply elem_of_nil in H|].
  destruct (file_lines w input_filename) as [text|];
    [|intros H; now apply elem_of_nil in H].
  set (e := match argv with [_; _; jira] => _ | _ => _ end).
  set (lines := List.filter check_valid_line text).
  assert (Hsub : line ∈ attempted (scrub_lines e lines []) -> line <> "").
  { intros Hl%scrub_lines_attempted_sub.
    apply list_elem_of_fmap in Hl as (raw & -> & Hraw).
    apply list_elem_of_In, filter_In in Hraw as [_ Hvalid].
    unfold check_valid_line in Hvalid.
    destruct (strip raw); [discriminate | discriminate]. }
  destruct (raised _); [exact Hsub|].
  destruct (run_commands_async _ _ _ _ _) as [[[res|err]|] st]; exact Hsub.
Qed.

Section ValidLines.

Lemma isspace_not_hash (c : ascii) :
  isspace c = true -> Ascii.eqb "#" c = false.
Proof. destruct c as [[] [] [] [] [] [] [] []]; vm_compute; congruence. Qed.

Lemma isspace_not_slash (c : ascii) :
  isspace c = true -> Ascii.eqb "/" c = false.
Proof. destruct c as [[] [] [] [] [] [] [] []]; vm_compute; congruence. Qed.

End ValidLines.

(** X9. [check_valid_line] looks for the comment markers at the very start
    of the line as read: a line that starts with whitespace is taken for a
    command as soon as it is not blank, a comment behind the whitespace
    included. *)
Theorem check_valid_line_indented (c : ascii) (rest : string) :
  isspace c = true ->
  check_valid_line (String c rest) = negb (is_empty (strip rest)).
Proof.
  intros Hc. unfold check_valid_line, strip. cbn [lstrip startswith].
  rewrite Hc, (isspace_not_hash c Hc), (isspace_not_slash c Hc).
  now destruct (is_empty _).
Qed.

Lemma check_valid_line_indented_witness :
  isspace " " = true /\
  check_valid_line " # not run" = negb (is_empty (strip "# not run")).
Proof.
  split; [reflexivity|].
  exact (check_valid_line_indented " " "# not run" eq_refl).
Defined.

(** X10. [scrub_line] excludes a line only after the lookup for an SRG has
    found no run command, and then reports the line as it was given. *)
Theorem scrub_line_excludes_only_srg (e : Env) (line cmd : string) :
  scrub_line e line = Ok (cmd, true) ->
  cmd = line /\
  names_srg (located line) = Ok true /\
  (get_srg_runjob_command e (located line) = Ok None \/
   get_srg_runjob_command e (located line) = Ok (Some "")).
Proof.
  rewrite scrub_line_located.
  destruct (names_srg (located line)) as [[]|err]; cbn [bind];
    [|discriminate..].
  destruct (get_srg_runjob_command e (located line)) as [[runjob|]|err];
    cbn [bind]; [| |discriminate].
  - destruct runjob; cbn [is_empty]; [|discriminate].
    intros [= <-]. auto.
  - intros [= <-]. auto.
Qed.

Lemma scrub_line_excludes_only_srg_witness :
  scrub_line quiet_env "1i34" = Ok ("1i34", true) /\
  "1i34" = "1i34" /\
  names_srg (located "1i34") = Ok true /\
  (get_srg_runjob_command quiet_env (located "1i34") = Ok None \/
   get_srg_runjob_command quiet_env (located "1i34") = Ok (Some "")).
Proof.
  split; [reflexivity|].
  exact (scrub_line_excludes_only_srg quiet_env "1i34" "1i34" eq_refl).
Defined.

(** X11. A command of fewer than three words that is not a [publish]
    command has no job or no identifier to look for: the log file reported
    is the error sentinel. *)
Theorem get_runjob_logfile_short_command (e : Env) (command : string) :
  startswith command "publish" = false ->
  length (words command) < 3 ->
  get_runjob_logfile e command = LOGFILE_RETRIEVAL_ERROR.
Proof.
  intros Hpub Hlen. unfold get_runjob_logfile, get_runjob_logfile_body.
  rewrite Hpub. cbn [bind]. unfold item.
  destruct (words command) as [|w0 [|w1 [|w2 ws]]]; simpl in *;
    try reflexivity.
  lia.
Qed.

Lemma get_runjob_logfile_short_command_witness :
  length (words "runjob all_daily") < 3 /\
  get_runjob_logfile quiet_env "runjob all_daily" = LOGFILE_RETRIEVAL_ERROR.
Proof.
  split; [vm_compute; lia|].
  apply get_runjob_logfile_short_command; [reflexivity | vm_compute; lia].
Defined.

(** X12. A [publish] command that [publish_to_runjob] cannot translate, for
    want of a report number of two parts or of a CFG file, has the error
    sentinel as its log file. *)
Theorem get_runjob_logfile_unpublished (e : Env) (command : string) :
  startswith command "publish" = true ->
  (forall runjob, publish_to_runjob e command <> Ok (Some runjob)) ->
  get_runjob_logfile e command = LOGFILE_RETRIEVAL_ERROR.
Proof.
  intros Hpub Hnone. unfold get_runjob_logfile, get_runjob_logfile_body.
  rewrite Hpub.
  destruct (publish_to_runjob e command) as [[runjob|]|err]; cbn [bind];
    try reflexivity.
  now destruct (Hnone runjob).
Qed.

Lemma get_runjob_logfile_unpublished_witness :
  publish_to_runjob quiet_production "publish RESQ-195" = Ok None /\
  get_runjob_logfile quiet_production "publish RESQ-195" =
    LOGFILE_RETRIEVAL_ERROR.
Proof.
  split; [reflexivity|].
  apply get_runjob_logfile_unpublished; [reflexivity | discriminate].
Defined.

(** X13. For an SRG on a production machine the log file reported is never
    empty: it is the quoted path of the log of the SRG, or the error
    sentinel when the directory listing does not name the SRG. *)
Theorem get_runjob_logfile_production_srg (e : Env) (command : string) :
  current_machine_is_production_server e = true ->
  startswith command "publish" = false ->
  words command !! 1 = Some "srg" ->
  get_runjob_logfile e command <> "" /\
  (get_runjob_logfile e command = LOGFILE_RETRIEVAL_ERROR \/
   exists srg_name,
     get_runjob_logfile e command =
     "/NAS/mis/srg/'" +:+ srg_name +:+ "'/logs/logfile.txt").
Proof.
  intros Hprod Hpub Hsrg.
  assert (Hitem : item (words command) 1 = Ok "srg")
    by (unfold item; now rewrite Hsrg).
  assert (H : get_runjob_logfile e command = LOGFILE_RETRIEVAL_ERROR \/
              exists srg_name,
                get_runjob_logfile e command =
                "/NAS/mis/srg/'" +:+ srg_name +:+ "'/logs/logfile.txt").
  { unfold get_runjob_logfile, get_runjob_logfile_body.
    rewrite Hpub. cbn [bind]. rewrite Hitem. cbn [bind].
    change (String.eqb "srg" "srg") with true. cbv iota.
    case_bind; [|now left]. rewrite Hprod.
    case_bind; [|now left]. case_bind; [|now left]. right. eauto. }
  split; [|exact H].
  destruct H as [->|[srg_name ->]]; discriminate.
Qed.

Lemma get_runjob_logfile_production_srg_witness :
  words "runjob srg ABC123" !! 1 = Some "srg" /\
  get_runjob_logfile quiet_production "runjob srg ABC123" <> "" /\
  (get_runjob_logfile quiet_production "runjob srg ABC123" =
     LOGFILE_RETRIEVAL_ERROR \/
   exists srg_name,
     get_runjob_logfile quiet_production "runjob srg ABC123" =
     "/NAS/mis/srg/'" +:+ srg_name +:+ "'/logs/logfile.txt").
Proof.
  split; [reflexivity|].
  apply get_runjob_logfile_production_srg; reflexivity.
Defined.

Section CheckCtl.

Lemma collect_runjob_lines (lines : list string) : forall acc,
  fold_left (fun runjobs_list line =>
    let line := strip line in
    if contains "runjob" line && negb (startswith line "#")
    then runjobs_list ++ [line] else runjobs_list) lines acc =
  acc ++ runjob_lines lines.
Proof.
  unfold runjob_lines.
  induction lines as [|line lines IH]; intros acc;
    cbn [fold_left map List.filter].
  - now rewrite app_nil_r.
  - rewrite IH.
    destruct (contains "runjob" (strip line)
              && negb (startswith (strip line) "#")); [|reflexivity].
    now rewrite <- app_assoc.
Qed.

End CheckCtl.

(** X14. [check_ctl_for_runjob] returns the one line of the CTL that holds
    [runjob] and is not commented out, stripped, when there is exactly one;
    with none or several it returns its argument. What it returns in place
    of its argument is therefore a trackable command. *)
Theorem check_ctl_for_runjob_single (readlines : string -> option (list string))
    (command : string) (lines : list string) :
  readlines command = Some lines ->
  check_ctl_for_runjob readlines command =
    Ok match runjob_lines lines with
       | [runjob] => runjob
       | _ => command
       end /\
  (forall out, check_ctl_for_runjob readlines command = Ok out ->
     out <> command ->
     has_logfile out = true /\ startswith out "#" = false /\
     runjob_lines lines = [out]).
Proof.
  intros Hread.
  assert (Heq : check_ctl_for_runjob readlines command =
    Ok match runjob_lines lines with [runjob] => runjob | _ => command end).
  { unfold check_ctl_for_runjob. rewrite Hread. cbv zeta.
    rewrite collect_runjob_lines, app_nil_l.
    destruct (runjob_lines lines) as [|r [|r' rs]]; reflexivity. }
  split; [exact Heq|].
  intros out Hout Hne. rewrite Heq in Hout. injection Hout as Hout.
  destruct (runjob_lines lines) as [|r [|r' rs]] eqn:Hrs;
    try congruence.
  subst r. split; [|split; [|reflexivity]].
  - assert (Hin : In out (runjob_lines lines)) by (rewrite Hrs; now left).
    apply filter_In in Hin as [_ [Hrun _]%andb_true_iff].
    unfold has_logfile. simpl. now rewrite Hrun.
  - assert (Hin : In out (runjob_lines lines)) by (rewrite Hrs; now left).
    apply filter_In in Hin as [_ [_ Hc]%andb_true_iff].
    now apply negb_true_iff.
Qed.

Lemma check_ctl_for_runjob_single_witness :
  check_ctl_for_runjob
    (fun _ => Some ["# runjob all_old 1"; "cd /NAS/mis"; "  runjob all_daily 7 "])
    "/NAS/mis/esp/scripts/praa1234.ctl" = Ok "runjob all_daily 7".
Proof.
  exact (proj1 (check_ctl_for_runjob_single
    (fun _ => Some ["# runjob all_old 1"; "cd /NAS/mis"; "  runjob all_daily 7 "])
    "/NAS/mis/esp/scripts/praa1234.ctl" _ eq_refl)).
Defined.

Lemma has_logfile_token (command : string) :
  occurs_in "runjob" command \/ occurs_in "publish" command ->
  has_logfile command = true.
Proof.
  unfold has_logfile. cbn [existsb]. rewrite <- !contains_iff.
  intros [->| ->]; [reflexivity|].
  now destruct (contains "runjob" command).
Qed.

Lemma scrub_line_acceptable_inputs_witness :
  is_job_code "1234" = true /\
  Forall (fun line =>
            scrub_line quiet_env line = Ok (ctl_path "1234", false))
    ["1234"; "praa" +:+ "1234"; "praa" +:+ "1234" +:+ ".ctl";
     "./praa" +:+ "1234" +:+ ".ctl"; ctl_path "1234"].
Proof.
  split; [reflexivity|].
  apply scrub_line_acceptable_inputs; [reflexivity | discriminate].
Defined.

Lemma scrub_line_srg_code_witness :
  is_job_code "1i34" = true /\
  Forall (fun line =>
    scrub_line srg_env line =
    Ok match mssql_query srg_env (srg_query ("mis_" +:+ "1i34" +:+ "_00_c")) with
       | Ok [Some runjob] =>
           if is_empty runjob then (line, true) else (runjob, false)
       | _ => (line, true)
       end)
    ["1i34"; "praa" +:+ "1i34"; "praa" +:+ "1i34" +:+ ".ctl";
     "./praa" +:+ "1i34" +:+ ".ctl"; ctl_path "1i34"].
Proof.
  split; [reflexivity|].
  apply scrub_line_srg_code; reflexivity.
Defined.

Example scrub_line_srg_resolved :
  scrub_line srg_env "1i34" = Ok ("runjob srg ABC123", false).
Proof. reflexivity. Qed.

Lemma normalized_lines_not_empty_witness :
  "./praa5678.ctl" ∈ normalized (main mixed_batch sample_argv) /\
  "./praa5678.ctl" <> "".
Proof.
  assert (Hin : "./praa5678.ctl" ∈ normalized (main mixed_batch sample_argv))
    by (right; left).
  split; [exact Hin|].
  exact (normalized_lines_not_empty mixed_batch sample_argv _ Hin).
Defined.

Lemma main_refuses_bare_filename_witness :
  contains "/" "jobs_to_run.txt" = false /\
  main {| env := quiet_production;
          file_lines := fun _ => Some ["abcd" +:+ LF];
          returncode := fun _ => 0%Z;
          spawn_error := fun _ => None;
          schedule := [0; 0] |}
       ["run_bulk_jobs.py"; "jobs_to_run.txt"; "RESQ-195"] =
    stopped (Exit 1) [] [] [].
Proof.
  split; [reflexivity|].
  apply (main_refuses_bare_filename _ _ "jobs_to_run.txt"); reflexivity.
Defined.

(** X15. The order in which the child processes complete changes neither the
    pairs [run_commands_async] returns nor, up to their order, the commands
    it has executed. *)
Theorem run_commands_async_schedule_independent (commands : list string)
    (rc : nat -> Z) (se : nat -> option exn) (d : dict)
    (schedule1 schedule2 : list nat)
    res1 st1 res2 st2 :
  run_commands_async commands rc se schedule1 d = (Some (Ok res1), st1) ->
  run_commands_async commands rc se schedule2 d = (Some (Ok res2), st2) ->
  res1 = res2 /\ spawned st1 ≡ₚ spawned st2 /\ tasks st1 = tasks st2.
Proof.
  intros H1 H2.
  assert (Ht : forall schedule res st,
    run_commands_async commands rc se schedule d = (Some (Ok res), st) ->
    tasks st = map Returned res).
  { unfold run_commands_async. intros schedule res st [= Hres <-].
    apply gather_ok in Hres as [_ Hres].
    apply mapM_Some in Hres. clear -Hres.
    induction Hres as [|t r ts rs Ht _ IH]; [reflexivity|].
    destruct t; simplify_eq/=. reflexivity. }
  rewrite (Ht _ _ _ H1), (Ht _ _ _ H2).
  apply run_commands_async_returns in H1 as (-> & Hs1 & _).
  apply run_commands_async_returns in H2 as (-> & Hs2 & _).
  split; [reflexivity|]. split; [|reflexivity]. now rewrite Hs1, Hs2.
Qed.

Lemma run_commands_async_schedule_independent_witness :
  run_commands_async ["ls"; "pwd"] (fun i : nat => Z.of_nat i)
    (fun _ => None) [0; 1; 0; 1] [] =
    (Some (Ok [("ls", OBool false); ("pwd", OBool true)]),
     {| tasks := [Returned ("ls", OBool false); Returned ("pwd", OBool true)];
        spawned := ["ls"; "pwd"]; results_dict := [];
        first_error := None |}) /\
  run_commands_async ["ls"; "pwd"] (fun i : nat => Z.of_nat i)
    (fun _ => None) [1; 0; 1; 0] [] =
    (Some (Ok [("ls", OBool false); ("pwd", OBool true)]),
     {| tasks := [Returned ("ls", OBool false); Returned ("pwd", OBool true)];
        spawned := ["pwd"; "ls"]; results_dict := [];
        first_error := None |}) /\
  ["ls"; "pwd"] ≡ₚ ["pwd"; "ls"].
Proof.
  split; [reflexivity|]. split; [reflexivity|].
  exact (proj1 (proj2 (run_commands_async_schedule_independent
    ["ls"; "pwd"] (fun i : nat => Z.of_nat i) (fun _ => None) []
    [0; 1; 0; 1] [1; 0; 1; 0]
    _ _ _ _ eq_refl eq_refl))).
Defined.

(** X16. Two runs of the script that differ only in the order in which the
    event loop resumes the tasks, and that both reach their end, give the
    same results map, the same counters and the same log files. *)
Theorem main_schedule_independent (w : World) (argv : list string)
    (schedule' : list nat) :
  ended (main w argv) = Exit 0 ->
  ended (main (rescheduled w schedule') argv) = Exit 0 ->
  results (main (rescheduled w schedule') argv) = results (main w argv) /\
  failure_count (main (rescheduled w schedule') argv) =
    failure_count (main w argv) /\
  skipped_count (main (rescheduled w schedule') argv) =
    skipped_count (main w argv) /\
  logfiles (main (rescheduled w schedule') argv) = logfiles (main w argv) /\
  normalized (main (rescheduled w schedule') argv) = normalized (main w argv).
Proof.
  unfold main.
  cbn [rescheduled env file_lines returncode spawn_error schedule].
  destruct (bad_usage _ _); [discriminate|].
  destruct (argv !! 1) as [input_filename|]; [|discriminate].
  destruct (negb _); [discriminate|].
  destruct (file_lines w input_filename) as [text|]; [|discriminate].
  set (e := match argv with [_; _; jira] => _ | _ => _ end).
  set (lines := List.filter check_valid_line text).
  destruct (raised (scrub_lines e lines [])); [discriminate|].
  destruct (run_commands_async _ _ _ (schedule w) _)
    as [[[res|err]|] st] eqn:Hrun; [|discriminate..].
  destruct (run_commands_async _ _ _ schedule' _)
    as [[[res'|err']|] st'] eqn:Hrun'; [|discriminate..].
  intros _ _.
  apply run_commands_async_returns in Hrun as (-> & _ & ->).
  apply run_commands_async_returns in Hrun' as (-> & _ & ->).
  repeat split; reflexivity.
Qed.

Lemma main_schedule_independent_witness :
  ended (main mixed_batch sample_argv) = Exit 0 /\
  ended (main (rescheduled mixed_batch [0; 0; 1; 1]) sample_argv) = Exit 0 /\
  results (main (rescheduled mixed_batch [0; 0; 1; 1]) sample_argv) =
    results (main mixed_batch sample_argv).
Proof.
  split; [reflexivity|]. split; [reflexivity|].
  exact (proj1 (main_schedule_independent mixed_batch sample_argv
                  [0; 0; 1; 1] eq_refl eq_refl)).
Defined.

(** X17. What [publish_to_runjob] returns is a [runjob] command of the job
    [all_publish] whose identifier ends in [_publish]; it is trackable. *)
Theorem publish_to_runjob_names_all_publish (e : Env)
    (publish_cmd runjob : string) :
  publish_to_runjob e publish_cmd = Ok (Some runjob) ->
  startswith runjob "runjob all_publish " = true /\
  endswith runjob "_publish" = true /\
  has_logfile runjob = true.
Proof.
  unfold publish_to_runjob.
  case_bind; [|discriminate]. case_bind; [|discriminate].
  destruct a0 as [pub_name pub_id].
  assert (Hshape : forall report,
    startswith ("runjob all_publish " +:+ report +:+ "_publish")
      "runjob all_publish " = true /\
    endswith ("runjob all_publish " +:+ report +:+ "_publish")
      "_publish" = true /\
    has_logfile ("runjob all_publish " +:+ report +:+ "_publish") = true).
  { intros report. split; [apply startswith_append|]. split.
    - rewrite <- append_assoc. apply endswith_append.
    - apply has_logfile_token. left.
      exists "", (" all_publish " +:+ report +:+ "_publish"). reflexivity. }
  destruct (path_exists e _).
  - intros [= <-]. specialize (Hshape (pub_name +:+ "-" +:+ pub_id)).
    now rewrite !append_assoc in Hshape.
  - destruct (path_exists e _); [|discriminate].
    intros [= <-]. specialize (Hshape (pub_name +:+ pub_id)).
    now rewrite !append_assoc in Hshape.
Qed.

Lemma publish_to_runjob_names_all_publish_witness :
  publish_to_runjob quiet_env "publish RESQ-195" =
    Ok (Some "runjob all_publish resq-195_publish") /\
  startswith "runjob all_publish resq-195_publish" "runjob all_publish " = true /\
  endswith "runjob all_publish resq-195_publish" "_publish" = true /\
  has_logfile "runjob all_publish resq-195_publish" = true.
Proof.
  split; [reflexivity|].
  exact (publish_to_runjob_names_all_publish quiet_env "publish RESQ-195"
           _ eq_refl).
Defined.

(** X18. [get_srg_runjob_command] gives a run command exactly when the
    query for the job name returns a single row, and then the value of
    that row: no row, several rows and an exception of the database all
    give [None]. *)
Theorem get_srg_runjob_command_single_row (e : Env) (job_nm runjob : string) :
  get_srg_runjob_command e job_nm = Ok (Some runjob) <->
  exists name,
    srg_job_name job_nm = Ok name /\
    mssql_query e (srg_query name) = Ok [Some runjob].
Proof.
  split.
  - intros Hget. destruct (srg_job_name job_nm) as [name|err] eqn:Hname.
    + exists name. split; [reflexivity|].
      rewrite (get_srg_runjob_command_rows e job_nm name Hname) in Hget.
      destruct (mssql_query e (srg_query name))
        as [[|[row|] [|row' data]]|err]; congruence.
    + unfold get_srg_runjob_command in Hget. now rewrite Hname in Hget.
  - intros (name & Hname & Hrows).
    now rewrite (get_srg_runjob_command_rows e job_nm name Hname), Hrows.
Qed.

(** X19. A job name that holds no slash, no [praa] and no [.ctl] is looked up
    between [mis_] and [_00_c] as it is, a name already of that form
    included. *)
Theorem srg_job_name_plain (job_nm : string) :
  contains "/" job_nm = false ->
  contains "praa" job_nm = false ->
  contains ".ctl" job_nm = false ->
  srg_job_name job_nm = Ok ("mis_" +:+ job_nm +:+ "_00_c").
Proof.
  intros Hslash Hpraa Hctl. unfold srg_job_name.
  rewrite (split_absent job_nm "/") by (discriminate || assumption).
  cbn [last_item last bind].
  rewrite (split_absent job_nm "praa") by (discriminate || assumption).
  cbn [last_item last bind].
  now rewrite (split_absent job_nm ".ctl") by (discriminate || assumption).
Qed.

Lemma srg_job_name_plain_witness :
  srg_job_name "mis_1i34_00_c" = Ok ("mis_" +:+ "mis_1i34_00_c" +:+ "_00_c").
Proof. apply srg_job_name_plain; reflexivity. Defined.
